(** * geli: user controller rules and the course media manager

    A shallow embedding of
    - [api/src/controllers/UserController.ts] (cleanUserObject, searchUser,
      updateUser, deleteUser, getUser, getUsers, escapeRegex and the naming
      of uploaded pictures),
    - the course media component (changeDirectory, reloadDirectory,
      toggleSelection, removeSelectedFile, renameFile), and
    - [api/src/security/passportLoginMiddleware.ts] (the login callback,
      ldapLogin, buildDn),
    followed by the properties of these functions.

    Conventions.  JavaScript strings are [string]s whose characters are
    single code units; a value that may be [undefined] or [null] is a
    [JsOpt]; a Mongo collection is the list of its documents; a thrown
    exception is the [Throw] branch of a result. *)

From Stdlib Require Import List String Ascii Bool ZArith Lia Arith.
From Stdlib Require Import Sorted Permutation.
From Stdlib Require DecimalString.
Import ListNotations.

Local Open Scope string_scope.
Local Open Scope list_scope.

(* ===================================================================== *)
(** ** JavaScript values and built-ins used by the sources               *)
(* ===================================================================== *)

Module Js.

(** A property that can be absent ([undefined]), [null], or hold a value. *)
Inductive JsOpt (A : Type) : Type :=
| undefined : JsOpt A
| null : JsOpt A
| val : A -> JsOpt A.

Arguments undefined {A}.
Arguments null {A}.
Arguments val {A} _.

(** [util.isNullOrUndefined]. *)
Definition isNullOrUndefined {A} (v : JsOpt A) : bool :=
  match v with
  | undefined | null => true
  | val _ => false
  end.

(** Strict equality [===] on possibly absent strings. *)
Definition strictEq (a b : JsOpt string) : bool :=
  match a, b with
  | undefined, undefined => true
  | null, null => true
  | val x, val y => String.eqb x y
  | _, _ => false
  end.

(** Truthiness of a possibly absent string: only a non-empty string is
    truthy. *)
Definition truthy (a : JsOpt string) : bool :=
  match a with
  | val s => negb (String.eqb s "")
  | _ => false
  end.

(** White space removed by [String.prototype.trim], among the single
    code units: tab, line feed, vertical tab, form feed, carriage return,
    space and the no-break space. *)
Definition isWhiteSpace (c : ascii) : bool :=
  let n := nat_of_ascii c in
  (Nat.eqb n 9) || (Nat.eqb n 10) || (Nat.eqb n 11) || (Nat.eqb n 12)
  || (Nat.eqb n 13) || (Nat.eqb n 32) || (Nat.eqb n 160).

Fixpoint trimStart (s : string) : string :=
  match s with
  | EmptyString => EmptyString
  | String c r => if isWhiteSpace c then trimStart r else s
  end.

Fixpoint trimEnd (s : string) : string :=
  match s with
  | EmptyString => EmptyString
  | String c r =>
      let r' := trimEnd r in
      if isWhiteSpace c && String.eqb r' EmptyString
      then EmptyString else String c r'
  end.

(** [String.prototype.trim]. *)
Definition trim (s : string) : string := trimEnd (trimStart s).

(** [String.prototype.split] with a one-character separator. *)
Fixpoint split (sep : ascii) (s : string) : list string :=
  match s with
  | EmptyString => [EmptyString]
  | String c r =>
      if Ascii.eqb c sep then EmptyString :: split sep r
      else match split sep r with
           | h :: t => String c h :: t
           | [] => [String c EmptyString]
           end
  end.

(** [String.prototype.toLowerCase] on single code units: the letters
    [A]..[Z] (65-90) and the capital letters of the Latin-1 range (192-214
    and 216-222) are moved 32 places up, everything else is kept. *)
Definition lowerChar (c : ascii) : ascii :=
  let n := nat_of_ascii c in
  if ((Nat.leb 65 n) && (Nat.leb n 90))
     || ((Nat.leb 192 n) && (Nat.leb n 214))
     || ((Nat.leb 216 n) && (Nat.leb n 222))
  then ascii_of_nat (n + 32) else c.

Fixpoint toLowerCase (s : string) : string :=
  match s with
  | EmptyString => EmptyString
  | String c r => String (lowerChar c) (toLowerCase r)
  end.

(** The relational operators [<] and [>] on strings: lexicographic
    comparison of code units. *)
Definition strLt (a b : string) : bool := String.ltb a b.
Definition strGt (a b : string) : bool := String.ltb b a.

(** [Array.prototype.join]. *)
Fixpoint join (sep : string) (l : list string) : string :=
  match l with
  | [] => EmptyString
  | [x] => x
  | x :: r => x ++ sep ++ join sep r
  end.

Section Arrays.
Context {A : Type}.

(** [Array.prototype.indexOf] for a given notion of [===] on the
    elements: the first position holding the element, or [-1]. *)
Fixpoint indexOfFrom (same : A -> A -> bool) (x : A) (l : list A) (i : Z) : Z :=
  match l with
  | [] => (-1)%Z
  | y :: r => if same y x then i else indexOfFrom same x r (i + 1)%Z
  end.

Definition indexOf (same : A -> A -> bool) (l : list A) (x : A) : Z :=
  indexOfFrom same x l 0%Z.

(** [arr.splice(position, 1)] for a position inside the array: the
    element at that position is removed.  A negative position counts
    from the end in JavaScript; the sources only pass positions that
    [indexOf] found, so positions outside the array remove nothing
    here. *)
Fixpoint removeAt (n : nat) (l : list A) : list A :=
  match n, l with
  | _, [] => []
  | O, _ :: r => r
  | S k, y :: r => y :: removeAt k r
  end.

Definition splice1 (l : list A) (position : Z) : list A :=
  if (position <? 0)%Z then l else removeAt (Z.to_nat position) l.

(** [arr.push(x)]. *)
Definition push (l : list A) (x : A) : list A := l ++ [x].

(** [Array.prototype.sort(compareFn)]: a stable sort; [a] stays before
    [b] when [compareFn a b <= 0].  Modelled as the stable insertion
    sort. *)
Fixpoint sortInsert (compareFn : A -> A -> Z) (x : A) (l : list A) : list A :=
  match l with
  | [] => [x]
  | y :: r =>
      if (compareFn x y <=? 0)%Z then x :: y :: r
      else y :: sortInsert compareFn x r
  end.

Fixpoint sort (compareFn : A -> A -> Z) (l : list A) : list A :=
  match l with
  | [] => []
  | x :: r => sortInsert compareFn x (sort compareFn r)
  end.
End Arrays.

End Js.

Import Js.

(* ===================================================================== *)
(** ** api/src/controllers/UserController.ts                             *)
(* ===================================================================== *)

Module UserController.

(** The errors of routing-controllers thrown by the controller, and the
    [TypeError] the runtime raises on a property access through [null] or
    [undefined]. *)
Inductive HttpError : Type :=
| BadRequestError (message : string)
| ForbiddenError (message : string)
| InternalServerError (message : string)
| NotFoundError (message : string)
| TypeError.

Inductive Result (A : Type) : Type :=
| Ok (a : A)
| Throw (e : HttpError).

Arguments Ok {A} a.
Arguments Throw {A} e.

Definition bind {A B} (r : Result A) (k : A -> Result B) : Result B :=
  match r with
  | Ok a => k a
  | Throw e => Throw e
  end.

(** [if (c) throw e;] *)
Definition throwIf (c : bool) (e : HttpError) : Result unit :=
  if c then Throw e else Ok tt.

Declare Scope result_scope.
Delimit Scope result_scope with result.
Notation "x <- c1 ;; c2" := (bind c1 (fun x => c2))
  (at level 61, c1 at next level, right associativity) : result_scope.
Notation "c1 ;;; c2" := (bind c1 (fun _ => c2))
  (at level 61, right associativity) : result_scope.

(** The fields of [IUser] that the controller reads or writes.  The same
    shape serves for stored documents, for the update payload and for the
    logged-in user. *)
Record IUser : Type := mkUser {
  _id : string;
  uid : JsOpt string;
  email : string;
  password : JsOpt string;
  currentPassword : JsOpt string;
  role : string;
}.

Definition set_password (u : IUser) (p : JsOpt string) : IUser :=
  mkUser (_id u) (uid u) (email u) p (currentPassword u) (role u).

Definition set_uid (u : IUser) (v : JsOpt string) : IUser :=
  mkUser (_id u) v (email u) (password u) (currentPassword u) (role u).

(** The [users] collection. *)
Definition Collection : Type := list IUser.

(** *** cleanUserObject *)

(** [cleanUserObject(id, user, currentUser)], lines 501-507. *)
Definition cleanUserObject (id : string) (user : IUser) (currentUser : IUser) : IUser :=
  let user := set_password user (val "") in
  let user :=
    if negb (String.eqb (_id currentUser) id)
       && (negb (String.eqb (role currentUser) "teacher")
           || negb (String.eqb (role currentUser) "admin"))
    then set_uid user null
    else user in
  user.

(** *** searchUser *)

(** The characters that [escapeRegex] prefixes with a backslash:
    [-/\^$*+?.()|[]{}]. *)
Definition regexSpecial : list nat :=
  [45; 47; 92; 94; 36; 42; 43; 63; 46; 40; 41; 124; 91; 93; 123; 125].

Definition isRegexSpecial (c : ascii) : bool :=
  existsb (Nat.eqb (nat_of_ascii c)) regexSpecial.

Fixpoint escapeRegex (text : string) : string :=
  match text with
  | EmptyString => EmptyString
  | String c r =>
      if isRegexSpecial c
      then String (ascii_of_nat 92) (String c (escapeRegex r))
      else String c (escapeRegex r)
  end.

(** One disjunct of the [$or] condition of the search. *)
Inductive Condition : Type :=
| TextSearch (query : string)
| UidRegex (re : string)
| EmailRegex (re : string)
| FirstNameRegex (re : string)
| LastNameRegex (re : string).

Record SearchResult : Type := mkSearchResult {
  users : list IUser;
  count : nat;
}.

(** [Number.MAX_SAFE_INTEGER]. *)
Definition MAX_SAFE_INTEGER : Z := 9007199254740991.

Section Search.
(** The database side of the search: the evaluation of the [$or]
    condition (text index and regular expressions) restricted to a role
    and cut at a limit, and [user.forUser(currentUser)]; the constant
    [errorCodes.query.empty.code] of the configuration. *)
Variable findWhere : Collection -> list Condition -> string -> Z -> list IUser.
Variable forUser : IUser -> IUser -> IUser.
Variable queryEmptyCode : string.

(** [searchUser(currentUser, role, query, limit)], lines 179-213. *)
Definition searchUser (db : Collection) (currentUser : IUser) (role_ : string)
           (query : JsOpt string) (limit : option Z) : Result SearchResult :=
  (throwIf (negb (String.eqb role_ "student") && negb (String.eqb role_ "teacher"))
           (BadRequestError "Method not allowed for this role.") ;;;
   query <- match query with
            | val q => Ok (trim q)
            | _ => Throw TypeError
            end ;;
   throwIf (isNullOrUndefined (val query)) (BadRequestError queryEmptyCode) ;;;
   let escaped := split " "%char (escapeRegex query) in
   let conditions :=
     TextSearch query ::
     flat_map (fun elem => [UidRegex elem; EmailRegex elem;
                            FirstNameRegex elem; LastNameRegex elem])
              escaped in
   let amountUsers :=
     List.length (filter (fun u => String.eqb (role u) role_) db) in
   let limit := match limit with
                | Some n => if (n =? 0)%Z then MAX_SAFE_INTEGER else n
                | None => MAX_SAFE_INTEGER
                end in
   let found := findWhere db conditions role_ limit in
   Ok (mkSearchResult (map (fun user => forUser user currentUser) found)
                      amountUsers))%result.
End Search.

(** *** updateUser *)

(** The table [editLevels] of [updateUser], lines 402-406. *)
Definition editLevels : list (string * Z) :=
  [("student", 0%Z); ("teacher", 1%Z); ("admin", 2%Z)].

(** [obj.hasOwnProperty(key)] and [obj[key]] on such a table. *)
Definition hasOwnProperty (obj : list (string * Z)) (key : string) : bool :=
  existsb (fun kv => String.eqb (fst kv) key) obj.

Fixpoint getProperty (obj : list (string * Z)) (key : string) : Z :=
  match obj with
  | [] => 0%Z
  | (k, v) :: r => if String.eqb k key then v else getProperty r key
  end.

Record Privileges : Type := mkPrivileges {
  userIsAdmin : bool;
  userIsTeacher : bool;
  userIsStudent : bool;
}.

(** Modelled from the spec: the static [User.checkPrivileges] of the user
    model, which is not among the sources; an actor "is admin" when its
    role is [admin], and likewise for the other flags. *)
Definition checkPrivileges (user : IUser) : Privileges :=
  mkPrivileges (String.eqb (role user) "admin")
               (String.eqb (role user) "teacher")
               (String.eqb (role user) "student").

(** [User.findById(id)]. *)
Definition findById (id : string) (db : Collection) : option IUser :=
  find (fun u => String.eqb (_id u) id) db.

(** [User.find({$and: [{email}, {_id: {$ne: exceptId}}]}).limit(1)]. *)
Definition findSameEmail (db : Collection) (email_ exceptId : string) : list IUser :=
  firstn 1 (filter (fun u => String.eqb (email u) email_
                             && negb (String.eqb (_id u) exceptId)) db).

(** Replacement of the first document with the given id. *)
Fixpoint replaceById (id : string) (doc : IUser) (db : Collection) : Collection :=
  match db with
  | [] => []
  | u :: r => if String.eqb (_id u) id then doc :: r else u :: replaceById id doc r
  end.

Section Update.
(** What the user model brings: the check of a candidate password
    against a stored document, the document that results from applying
    a payload to a stored document, and [forUser]. *)
Variable isValidPassword : IUser -> JsOpt string -> bool.
Variable applyUpdate : IUser -> IUser -> IUser.
Variable forUser : IUser -> IUser -> IUser.

(** [User.findOneAndUpdate({_id: id}, newUser, {new: true})]: the
    updated document (if any) and the collection after the update. *)
Definition findOneAndUpdate (id : string) (newUser : IUser) (db : Collection)
  : option IUser * Collection :=
  match findById id db with
  | Some old =>
      let updated := applyUpdate old newUser in
      (Some updated, replaceById id updated db)
  | None => (None, db)
  end.

(** The password step, lines 453-460: the payload without its password
    when none is given, otherwise the previous password is checked. *)
Definition checkPassword (oldUser newUser : IUser) : Result IUser :=
  match password newUser with
  | undefined => Ok (set_password newUser undefined)
  | null => Throw TypeError
  | val p =>
      if (String.length p =? 0)%nat then Ok (set_password newUser undefined)
      else if negb (isValidPassword oldUser (currentPassword newUser))
           then Throw (BadRequestError "Invalid current password!")
           else Ok newUser
  end.

(** [updateUser(id, newUser, currentUser)], lines 399-464.  The result
    is the returned user together with the collection after the call. *)
Definition updateUser (db : Collection) (id : string) (newUser currentUser : IUser)
  : Result (IUser * Collection) :=
  (throwIf (negb (hasOwnProperty editLevels (role newUser)))
           (BadRequestError "Invalid update role.") ;;;
   throwIf (negb (hasOwnProperty editLevels (role currentUser)))
           (InternalServerError "Invalid current user role.") ;;;
   let currentEditLevel := getProperty editLevels (role currentUser) in
   let selfModification := String.eqb id (_id currentUser) in
   let currentUserIsAdmin := userIsAdmin (checkPrivileges currentUser) in
   throwIf (selfModification && negb (String.eqb (role currentUser) (role newUser)))
           (BadRequestError "You can't change your own role.") ;;;
   throwIf (0 <? List.length (findSameEmail db (email newUser) (_id newUser)))%nat
           (BadRequestError "This email address is already in use.") ;;;
   oldUser <- match findById id db with
              | Some u => Ok u
              | None => Throw TypeError
              end ;;
   throwIf (negb (hasOwnProperty editLevels (role oldUser)))
           (InternalServerError "Invalid old user role.") ;;;
   let oldEditLevel := getProperty editLevels (role oldUser) in
   (if negb currentUserIsAdmin then
      throwIf ((currentEditLevel <=? oldEditLevel)%Z && negb selfModification)
              (ForbiddenError
                 "You don't have the authorization to change a user of this role.") ;;;
      throwIf (negb (String.eqb (role newUser) (role oldUser)))
              (ForbiddenError "Only users with admin privileges can change roles.") ;;;
      throwIf (negb (strictEq (uid newUser) (uid oldUser)))
              (ForbiddenError "Only users with admin privileges can change uids.")
    else Ok tt) ;;;
   let newUser :=
     if truthy (uid oldUser) && strictEq (uid newUser) null
     then set_uid newUser (uid oldUser) else newUser in
   newUser <- checkPassword oldUser newUser ;;
   match findOneAndUpdate id newUser db with
   | (Some updatedUser, db') => Ok (forUser updatedUser currentUser, db')
   | (None, _) => Throw TypeError
   end)%result.
End Update.

(** The roles admitted by [@Authorized(['student', 'teacher', 'admin'])]
    in front of [updateUser]. *)
Definition authorizedForUpdate (currentUser : IUser) : bool :=
  existsb (String.eqb (role currentUser)) ["student"; "teacher"; "admin"].

(** *** deleteUser *)

Record DeleteResult : Type := mkDeleteResult { result : bool }.

(** [User.find({'role': 'admin'})]. *)
Definition findAdmins (db : Collection) : list IUser :=
  filter (fun u => String.eqb (role u) "admin") db.

(** [User.findByIdAndRemove(id)]: the collection without the first
    document of that id; nothing happens when there is none. *)
Fixpoint findByIdAndRemove (id : string) (db : Collection) : Collection :=
  match db with
  | [] => []
  | u :: r => if String.eqb (_id u) id then r else u :: findByIdAndRemove id r
  end.

(** [deleteUser(id)], lines 485-499.  The result is the response body
    together with the collection after the call. *)
Definition deleteUser (db : Collection) (id : string)
  : Result (DeleteResult * Collection) :=
  let adminUsers := findAdmins db in
  match adminUsers with
  | [admin0] =>
      if String.eqb (_id admin0) id && String.eqb (role admin0) "admin"
      then Throw (BadRequestError "There are no other users with admin privileges.")
      else Ok (mkDeleteResult true, findByIdAndRemove id db)
  | _ => Ok (mkDeleteResult true, findByIdAndRemove id db)
  end.

End UserController.

(* ===================================================================== *)
(** ** The course media component (course-media.component.ts)            *)
(* ===================================================================== *)

Module CourseMedia.

(** A file of the media manager.  [fileRef] is the identity of the
    JavaScript object: [indexOf] compares objects with [===], that is by
    identity and not by content. *)
Record IFile : Type := mkFile {
  fileRef : nat;
  fileId : string;
  fileName : string;
  link : string;
  size : Z;
}.

(** A directory with its files and sub-directories. *)
#[warnings="-register-all"]
Inductive IDirectory : Type :=
  mkDirectory (dirId : string) (dirName : string)
              (subDirectories : list IDirectory) (files : list IFile).

Definition dirId (d : IDirectory) : string :=
  match d with mkDirectory i _ _ _ => i end.
Definition dirName (d : IDirectory) : string :=
  match d with mkDirectory _ n _ _ => n end.
Definition subDirectories (d : IDirectory) : list IDirectory :=
  match d with mkDirectory _ _ s _ => s end.
Definition files (d : IDirectory) : list IFile :=
  match d with mkDirectory _ _ _ f => f end.

(** What [sortFnc] needs of its arguments: a [name]. *)
Class Named (A : Type) : Type := { name : A -> string }.

#[export] Instance Named_IFile : Named IFile := {| name := fileName |}.
#[export] Instance Named_IDirectory : Named IDirectory := {| name := dirName |}.

(** [sortFnc], lines 69-79. *)
Definition sortFnc {A} `{Named A} (a b : A) : Z :=
  let aName := toLowerCase (name a) in
  let bName := toLowerCase (name b) in
  if strLt aName bName then (-1)%Z
  else if strGt aName bName then 1%Z
  else 0%Z.

(** [===] on file objects. *)
Definition sameFile (a b : IFile) : bool := Nat.eqb (fileRef a) (fileRef b).

(** The fields of the component. *)
Record Component : Type := mkComponent {
  folderBarVisible : bool;
  currentFolder : option IDirectory;
  selectedFiles : list IFile;
  toggleBlocked : bool;
}.

Definition set_currentFolder (c : Component) (d : option IDirectory) : Component :=
  mkComponent (folderBarVisible c) d (selectedFiles c) (toggleBlocked c).
Definition set_selectedFiles (c : Component) (l : list IFile) : Component :=
  mkComponent (folderBarVisible c) (currentFolder c) l (toggleBlocked c).
Definition set_toggleBlocked (c : Component) (b : bool) : Component :=
  mkComponent (folderBarVisible c) (currentFolder c) (selectedFiles c) b.

(** The component as created: [selectedFiles = []], [toggleBlocked = false]. *)
Definition initialComponent : Component := mkComponent false None [] false.

(** [isInSelectedFiles(file)], lines 110-112. *)
Definition isInSelectedFiles (c : Component) (file : IFile) : bool :=
  negb (indexOf sameFile (selectedFiles c) file =? -1)%Z.

(** [toggleSelection(file)], lines 114-124. *)
Definition toggleSelection (c : Component) (file : IFile) : Component :=
  if toggleBlocked c then c
  else
    let position := indexOf sameFile (selectedFiles c) file in
    if negb (position =? -1)%Z
    then set_selectedFiles c (splice1 (selectedFiles c) position)
    else set_selectedFiles c (push (selectedFiles c) file).

(** A notification of the snack bar. *)
Inductive Notification : Type :=
| snackOpen (message : string)
| snackOpenLong (message : string).

(** What can make an [async] method of the component reject. *)
Inductive Failure : Type :=
| ServiceError
| NullAccess.

Section Services.
(** The remote media service, as a state machine: [getDirectory] yields
    a directory or rejects ([None]); [deleteFile] changes the remote
    state and resolves ([true]) or rejects ([false]). *)
Variable Server : Type.
Variable getDirectory : Server -> string -> bool -> option IDirectory.
Variable deleteFile : Server -> IFile -> Server * bool.

(** Everything a method can change: the component, the remote state, the
    notifications shown so far (oldest first) and the record of the
    [deleteFile] calls made so far with their outcome (oldest first). *)
Record World : Type := mkWorld {
  component : Component;
  server : Server;
  snackBar : list Notification;
  deleteCalls : list (IFile * bool);
}.

Definition set_component (w : World) (c : Component) : World :=
  mkWorld c (server w) (snackBar w) (deleteCalls w).
Definition notify (w : World) (n : Notification) : World :=
  mkWorld (component w) (server w) (snackBar w ++ [n]) (deleteCalls w).

(** [await this.mediaService.deleteFile(file)] with its [try]/[catch]:
    [true] when the call resolved. *)
Definition callDeleteFile (w : World) (file : IFile) : World * bool :=
  let '(srv, ok) := deleteFile (server w) file in
  (mkWorld (component w) srv (snackBar w) (deleteCalls w ++ [(file, ok)]), ok).

(** [changeDirectory(mediaId, lazy)], lines 64-86: the world after the
    call, and whether the call rejected. *)
Definition changeDirectory (w : World) (mediaId : string) (lazy : bool)
  : World * option Failure :=
  match getDirectory (server w) mediaId lazy with
  | None => (w, Some ServiceError)
  | Some fetched =>
      let w := set_component w (set_currentFolder (component w) (Some fetched)) in
      let sortedFiles := sort sortFnc (files fetched) in
      let folder := mkDirectory (dirId fetched) (dirName fetched)
                                (subDirectories fetched) sortedFiles in
      let sortedDirs := sort sortFnc (subDirectories folder) in
      let folder := mkDirectory (dirId folder) (dirName folder)
                                sortedDirs (files folder) in
      (set_component w (set_currentFolder (component w) (Some folder)), None)
  end.

(** [reloadDirectory()], lines 60-62. *)
Definition reloadDirectory (w : World) : World * option Failure :=
  match currentFolder (component w) with
  | None => (w, Some NullAccess)
  | Some folder => changeDirectory w (dirId folder) true
  end.

(** The loop of lines 142-148 over the selected files: the world after
    it and [filesFailed]. *)
Fixpoint deleteLoop (w : World) (selected : list IFile) (filesFailed : list string)
  : World * list string :=
  match selected with
  | [] => (w, filesFailed)
  | file :: rest =>
      let '(w, ok) := callDeleteFile w file in
      deleteLoop w rest (if ok then filesFailed else push filesFailed (name file))
  end.

(** [removeSelectedFile()], lines 130-159.  [deleteSelectedFiles] is
    what the confirmation dialog resolved to ([None] for [undefined]). *)
Definition removeSelectedFile (w : World) (deleteSelectedFiles : option bool)
  : World * option Failure :=
  let w := set_component w (set_toggleBlocked (component w) true) in
  match deleteSelectedFiles with
  | Some false => (w, None)
  | _ =>
      let '(w, filesFailed) := deleteLoop w (selectedFiles (component w)) [] in
      let w :=
        if (List.length filesFailed =? 0)%nat
        then notify w (snackOpen "Removed all selected files")
        else notify w (snackOpenLong ("Could not remove: " ++ join ", " filesFailed)) in
      let w := set_component w (set_selectedFiles (component w) []) in
      match reloadDirectory w with
      | (w, Some err) => (w, Some err)
      | (w, None) =>
          (set_component w (set_toggleBlocked (component w) false), None)
      end
  end.
End Services.

Arguments component {Server} w.
Arguments server {Server} w.
Arguments snackBar {Server} w.
Arguments deleteCalls {Server} w.
Arguments mkWorld {Server} _ _ _ _.

End CourseMedia.

(* ===================================================================== *)
(** ** Vocabulary of the properties                                      *)
(* ===================================================================== *)

Import UserController.

(** The four rejections of [updateUser] and [deleteUser] that the
    properties name. *)
Definition invalidRoleError : HttpError :=
  BadRequestError "Invalid update role.".
Definition ownRoleError : HttpError :=
  BadRequestError "You can't change your own role.".
Definition duplicateEmailError : HttpError :=
  BadRequestError "This email address is already in use.".
Definition lastAdminError : HttpError :=
  BadRequestError "There are no other users with admin privileges.".

Definition isBadRequest {A} (r : Result A) : bool :=
  match r with Throw (BadRequestError _) => true | _ => false end.
Definition isForbidden {A} (r : Result A) : bool :=
  match r with Throw (ForbiddenError _) => true | _ => false end.
Definition isOk {A} (r : Result A) : bool :=
  match r with Ok _ => true | _ => false end.

(** A role that has an edit level. *)
Definition knownRole (r : string) : bool := hasOwnProperty editLevels r.

(** The target is the only user of role [admin] in the collection. *)
Definition soleAdmin (db : Collection) (id : string) : Prop :=
  (exists u, In u db /\ _id u = id /\ role u = "admin") /\
  (forall v, In v db -> role v = "admin" -> _id v = id).

(** Some document other than the one of the given id has the email. *)
Definition emailTakenBesides (db : Collection) (exceptId email_ : string) : Prop :=
  exists u, In u db /\ email u = email_ /\ _id u <> exceptId.

(** The uid that lines 449-451 of [updateUser] leave in the payload. *)
Definition keptUid (oldUser newUser : IUser) : JsOpt string :=
  if truthy (uid oldUser) && strictEq (uid newUser) null
  then uid oldUser else uid newUser.

(** Sample users and services for the concrete runs. *)
Definition sampleUser (id role_ email_ : string) (uid_ : JsOpt string) : IUser :=
  mkUser id uid_ email_ undefined undefined role_.

Definition alice : IUser := sampleUser "a1" "admin" "alice@test.local" (val "100").
Definition tom : IUser := sampleUser "t1" "teacher" "tom@test.local" (val "200").
Definition sam : IUser := sampleUser "s1" "student" "sam@test.local" (val "300").
Definition sampleDb : Collection := [alice; tom; sam].

Definition noPasswordCheck (_ : IUser) (_ : JsOpt string) : bool := true.
Definition overwrite (_ newUser : IUser) : IUser := newUser.
Definition plainView (user _ : IUser) : IUser := user.
Definition noMatches (_ : Collection) (_ : list Condition) (_ : string) (_ : Z)
  : list IUser := [].

Import CourseMedia.

(** The case-insensitive order on names: the lowercased name of [a] is
    not above the lowercased name of [b]. *)
Definition nameLe {A} `{Named A} (a b : A) : Prop :=
  String.leb (toLowerCase (name a)) (toLowerCase (name b)) = true.

(** No file object is selected twice. *)
Definition selectionDistinct (c : Component) : Prop :=
  NoDup (map fileRef (selectedFiles c)).

(** The components that the methods can produce from the component as
    created: the writes to [selectedFiles] are those of [toggleSelection]
    and the reset of [removeSelectedFile]. *)
Inductive reachable : Component -> Prop :=
| reach_initial : reachable initialComponent
| reach_toggle c file : reachable c -> reachable (toggleSelection c file)
| reach_folder c d : reachable c -> reachable (set_currentFolder c d)
| reach_blocked c b : reachable c -> reachable (set_toggleBlocked c b)
| reach_reset c : reachable c -> reachable (set_selectedFiles c []).

(** The names of the files whose [deleteFile] call was rejected, in the
    order of the calls. *)
Definition failedNames (calls : list (IFile * bool)) : list string :=
  map (fun call => name (fst call)) (filter (fun call => negb (snd call)) calls).

(** One [deleteFile] call per file, in order, each answered by the
    service in the state left by the calls before it. *)
Fixpoint attempts {Server} (deleteFile : Server -> IFile -> Server * bool)
         (srv : Server) (selected : list IFile) : list (IFile * bool) :=
  match selected with
  | [] => []
  | file :: rest =>
      (file, snd (deleteFile srv file))
      :: attempts deleteFile (fst (deleteFile srv file)) rest
  end.

(** Sample files and a sample media service: the remote state is the list
    of the names that cannot be deleted; every directory id yields the
    same unsorted listing. *)
Definition notes : IFile := mkFile 1 "f1" "notes.txt" "l1" 10.
Definition Beta : IFile := mkFile 2 "f2" "Beta.pdf" "l2" 20.
Definition alpha : IFile := mkFile 3 "f3" "alpha.png" "l3" 30.
Definition sampleFolder : IDirectory :=
  mkDirectory "d0" "root"
              [mkDirectory "d2" "Zoo" [] []; mkDirectory "d1" "apes" [] []]
              [notes; Beta; alpha].

Definition sampleGetDirectory (_ : list string) (_ : string) (_ : bool)
  : option IDirectory := Some sampleFolder.
Definition sampleDeleteFile (locked : list string) (file : IFile)
  : list string * bool :=
  (locked, negb (existsb (String.eqb (fileName file)) locked)).

Definition sampleWorld : World (list string) :=
  mkWorld (mkComponent false (Some sampleFolder) [notes; Beta; alpha] false)
          ["Beta.pdf"] [] [].

(* ===================================================================== *)
(** ** Further parts of UserController.ts                                *)
(* ===================================================================== *)

(** [getUser(id, currentUser)], lines 273-280 (the population of
    [progress] concerns a field outside [IUser] as modelled). *)
Definition getUser (forUser : IUser -> IUser -> IUser) (db : Collection)
           (id : string) (currentUser : IUser) : Result IUser :=
  match findById id db with
  | None => Throw (NotFoundError "User was not found.")
  | Some user => Ok (forUser user currentUser)
  end.

(** [getUsers(currentUser)], lines 91-94. *)
Definition getUsers (forUser : IUser -> IUser -> IUser) (db : Collection)
           (currentUser : IUser) : list IUser :=
  map (fun user => forUser user currentUser) db.

(** [String.prototype.lastIndexOf] for a one-character needle: the last
    position holding it, or [-1]. *)
Fixpoint lastIndexOfFrom (c : ascii) (s : string) (i found : Z) : Z :=
  match s with
  | EmptyString => found
  | String x r => lastIndexOfFrom c r (i + 1)%Z (if Ascii.eqb x c then i else found)
  end.

Definition lastIndexOf (s : string) (c : ascii) : Z :=
  lastIndexOfFrom c s 0%Z (-1)%Z.

(** [s.substr(start)] for a start inside the string: the text from that
    position on.  (A negative start counts from the end in JavaScript; the
    source passes a position after a found dot.) *)
Fixpoint dropChars (n : nat) (s : string) : string :=
  match n, s with
  | O, _ => s
  | S k, EmptyString => EmptyString
  | S k, String _ r => dropChars k r
  end.

Definition substr (s : string) (start : Z) : string :=
  dropChars (Z.to_nat start) s.

(** The decimal text of an integer, as string concatenation produces it. *)
Definition numberToString (n : Z) : string :=
  DecimalString.NilZero.string_of_int (Z.to_int n).

(** The extension computed by lines 24-25 of the upload options. *)
Definition uploadExtension (originalname : string) : string :=
  let extPos := lastIndexOf originalname "."%char in
  if negb (extPos =? -1)%Z
  then ("." ++ toLowerCase (substr originalname (extPos + 1)%Z))%string
  else "".

(** [uploadOptions.storage.filename], lines 21-27.  [draw] stands for
    [Math.floor(Math.random() * 8999)], an integer from 0 to 8998. *)
Definition uploadFilename (id : string) (draw : Z) (originalname : string) : string :=
  let randomness := ("-" ++ numberToString (draw + 1000)%Z)%string in
  let ext := uploadExtension originalname in
  (id ++ randomness ++ ext)%string.

(** The syntax characters of a JavaScript regular expression,
    [^ $ \ . * + ? ( ) [ ] { } |]: outside an escape each of them has a
    meaning of its own. *)
Definition syntaxCharacter (c : ascii) : bool :=
  existsb (Nat.eqb (nat_of_ascii c))
          [94; 36; 92; 46; 42; 43; 63; 40; 41; 91; 93; 123; 125; 124].

(** The characters that a backslash turns into themselves: the ASCII
    characters other than letters, digits and the underscore (a backslash
    before one of those is a class, a boundary or a back reference). *)
Definition identityEscape (c : ascii) : bool :=
  let n := nat_of_ascii c in
  (Nat.ltb n 128)
  && negb ((Nat.leb 48 n && Nat.leb n 57)
           || (Nat.leb 65 n && Nat.leb n 90)
           || (Nat.leb 97 n && Nat.leb n 122)
           || Nat.eqb n 95).

(** The literal text that a pattern matches when the pattern consists of
    characters without a meaning in a regular expression and of identity
    escapes; [None] for any other pattern, in particular for a pattern
    with a syntax character outside an escape. *)
Fixpoint literalOf (pattern : string) : option string :=
  match pattern with
  | EmptyString => Some EmptyString
  | String c r =>
      if Ascii.eqb c (ascii_of_nat 92) then
        match r with
        | String d r' =>
            if identityEscape d then option_map (String d) (literalOf r') else None
        | EmptyString => None
        end
      else if syntaxCharacter c then None
      else option_map (String c) (literalOf r)
  end.

(** A text without the given character. *)
Definition lacksChar (c : ascii) (s : string) : Prop :=
  ~ In c (list_ascii_of_string s).

(* ===================================================================== *)
(** ** Further parts of the course media component                       *)
(* ===================================================================== *)

(** What the rename dialog hands to the subscriber of [afterClosed]:
    [undefined], [false], or the text entered. *)
Inductive DialogValue : Type :=
| dialogUndefined
| dialogFalse
| dialogText (value : string).

(** [file.name = value] as seen through a reference [f]: the object
    [file] gets the name, every other object is left alone. *)
Definition withName (file : IFile) (value : string) (f : IFile) : IFile :=
  if sameFile f file
  then mkFile (fileRef f) (fileId f) value (link f) (size f)
  else f.

(** The component after [file.name = value]: the object may be listed in
    the current folder and in the selection. *)
Definition assignName (c : Component) (file : IFile) (value : string) : Component :=
  mkComponent
    (folderBarVisible c)
    (option_map (fun d => mkDirectory (dirId d) (dirName d) (subDirectories d)
                                      (map (withName file value) (files d)))
                (currentFolder c))
    (map (withName file value) (selectedFiles c))
    (toggleBlocked c).

Section Rename.
Variable Server : Type.
Variable getDirectory : Server -> string -> bool -> option IDirectory.
(** [mediaService.updateFile]: the remote state after the call, and
    whether the call resolved. *)
Variable updateFile : Server -> IFile -> Server * bool.

(** [renameFile(file)], lines 167-185, from the moment the dialog is
    closed with [value]. *)
Definition renameFile (w : World Server) (file : IFile) (value : DialogValue)
  : World Server * option Failure :=
  match value with
  | dialogText value =>
      let w := set_component Server w (assignName (component w) file value) in
      let '(srv, ok) := updateFile (server w) (withName file value file) in
      let w := mkWorld (component w) srv (snackBar w) (deleteCalls w) in
      let w := if ok then notify Server w (snackOpen "Renamed file")
               else notify Server w (snackOpen "Rename failed, Server error") in
      reloadDirectory Server getDirectory w
  | _ => (w, None)
  end.
End Rename.

(** [toggleFolderBarVisibility()], lines 88-90. *)
Definition toggleFolderBarVisibility (c : Component) : Component :=
  mkComponent (negb (folderBarVisible c)) (currentFolder c) (selectedFiles c)
              (toggleBlocked c).

(* ===================================================================== *)
(** ** api/src/security/passportLoginMiddleware.ts                       *)
(* ===================================================================== *)

Module LoginMiddleware.

Record Opts : Type := mkOpts {
  url : string;
  connectTimeout : Z;
}.

(** [buildOpts()], lines 50-56. *)
Definition buildOpts : Opts := mkOpts "ldap://ldap-rr.fbi.h-da.de:389" 10000.

(** [buildDn(username)], lines 58-62. *)
Definition buildDn (username : string) : string :=
  let adSuffix := "ou=people,ou=Students,dc=fbi,dc=h-da,dc=de" in
  let dn := ("uid=" ++ username ++ "," ++ adSuffix)%string in
  dn.

(** What the middleware does to the outside, in order: the calls into
    the LDAP library, the console, the response and [next]. *)
Inductive Effect : Type :=
| RequireLdap
| CreateClient (opts : Opts)
| Bind (dn password : string)
| Unbind
| Search (dn : string)
| ConsoleLog
| Status (code : Z)
| Json (err : string)
| Next (err : option string).

Section Ldap.
(** Which call into the LDAP library throws, given what happened
    before. *)
Variable throws : list Effect -> Effect -> bool.

(** A call into the library: recorded, and either returning ([Some]) or
    throwing ([None]). *)
Definition call (e : Effect) (log : list Effect) : list Effect * option unit :=
  (log ++ [e], if throws log e then None else Some tt).

(** [isLdapAuthenticated(client, dn, password)], lines 83-92: the value
    returned inside the callback of [bind] is not the value of the
    function, which returns [undefined]. *)
Definition isLdapAuthenticated (dn password : string) (log : list Effect)
  : list Effect * option (JsOpt bool) :=
  match call (Bind dn password) log with
  | (log, None) => (log, None)
  | (log, Some _) =>
      match call Unbind log with
      | (log, None) => (log, None)
      | (log, Some _) => (log, Some undefined)
      end
  end.

(** [ldapSearch(client, dn)], lines 65-81. *)
Definition ldapSearch (dn : string) (log : list Effect)
  : list Effect * option unit :=
  call (Search dn) log.

(** The [try] block of [ldapLogin], lines 26-38 (the condition of line 36
    read with its missing closing parenthesis): the effects, whether
    [client] was assigned, and whether the block threw. *)
Definition ldapLoginTry (username password : string) (log : list Effect)
  : list Effect * bool * bool :=
  match call RequireLdap log with
  | (log, None) => (log, false, true)
  | (log, Some _) =>
      let OPTS := buildOpts in
      let dn := buildDn username in
      match call (CreateClient OPTS) log with
      | (log, None) => (log, false, true)
      | (log, Some _) =>
          match isLdapAuthenticated dn password log with
          | (log, None) => (log, true, true)
          | (log, Some authenticated) =>
              match authenticated with
              | val true =>
                  match ldapSearch dn log with
                  | (log, None) => (log, true, true)
                  | (log, Some _) => (log, true, false)
                  end
              | _ => (log, true, false)
              end
          end
      end
  end.

(** [ldapLogin(username, password)], lines 23-48: the effects and the
    returned value, or [None] when the [finally] block throws. *)
Definition ldapLogin (username password : string) (log : list Effect)
  : list Effect * option (JsOpt unit) :=
  let '(log, clientAssigned, thrown) := ldapLoginTry username password log in
  let log := if thrown then log ++ [ConsoleLog] else log in
  if clientAssigned then
    match call Unbind log with
    | (log, None) => (log, None)
    | (log, Some _) => (log, Some undefined)
    end
  else (log, Some undefined).

(** The callback given to [authFunction], lines 8-19, called with the
    error of the local authentication ([None] when there is none). *)
Definition loginCallback (username password : string) (err : option string)
           (log : list Effect) : list Effect * option unit :=
  match err with
  | Some e =>
      match ldapLogin username password log with
      | (log, None) => (log, None)
      | (log, Some result) =>
          if isNullOrUndefined result
          then (log ++ [Status 401; Json e; Next (Some e)], Some tt)
          else (log ++ [Next None], Some tt)
      end
  | None => (log ++ [Next None], Some tt)
  end.
End Ldap.

End LoginMiddleware.

(** The effects that [ldapLogin] can have: calls into the LDAP library
    other than a search, and the console. *)
Definition ldapOnly (e : LoginMiddleware.Effect) : Prop :=
  match e with
  | LoginMiddleware.RequireLdap | LoginMiddleware.CreateClient _
  | LoginMiddleware.Bind _ _ | LoginMiddleware.Unbind
  | LoginMiddleware.ConsoleLog => True
  | LoginMiddleware.Search _ | LoginMiddleware.Status _
  | LoginMiddleware.Json _ | LoginMiddleware.Next _ => False
  end.

(** A sample [applyUpdate]: the payload's fields under the stored id. *)
Definition storeUnderId (oldUser newUser : IUser) : IUser :=
  mkUser (_id oldUser) (uid newUser) (email newUser) (password newUser)
         (currentPassword newUser) (role newUser).

(* ===================================================================== *)
(** ** Concrete runs of the built-ins                                    *)
(* ===================================================================== *)

Example trim_run : trim "  a b   " = "a b" /\ trim "   " = "".
Proof. split; reflexivity. Qed.

Example split_run :
  split " "%char "ab cd  e" = ["ab"; "cd"; ""; "e"] /\ split " "%char "" = [""].
Proof. split; reflexivity. Qed.

Example escapeRegex_run : escapeRegex "a.b (c)" = "a\.b \(c\)".
Proof. reflexivity. Qed.

Example toLowerCase_run : toLowerCase "Beta.PDF [Z]" = "beta.pdf [z]".
Proof. reflexivity. Qed.

Example toLowerCase_latin1_run :
  toLowerCase (String (ascii_of_nat 220) "BUNG") = String (ascii_of_nat 252) "bung"
  /\ lowerChar (ascii_of_nat 215) = ascii_of_nat 215
  /\ lowerChar (ascii_of_nat 223) = ascii_of_nat 223.
Proof. repeat split. Qed.

Example trim_no_break_space_run :
  trim (String (ascii_of_nat 160) "a b") = "a b".
Proof. reflexivity. Qed.

Example join_run : join ", " ["a"; "b"; "c"] = "a, b, c" /\ join ", " [] = "".
Proof. split; reflexivity. Qed.

Example indexOf_run :
  indexOf sameFile [notes; Beta; alpha] alpha = 2%Z
  /\ indexOf sameFile [notes; Beta] alpha = (-1)%Z
  /\ splice1 [notes; Beta; alpha] 1%Z = [notes; alpha].
Proof. repeat split. Qed.

Example sort_run : sort sortFnc [notes; Beta; alpha] = [alpha; Beta; notes].
Proof. reflexivity. Qed.

Example searchUser_run :
  searchUser noMatches plainView "query.empty" sampleDb tom "student" (val "") None
  = Ok (mkSearchResult [] 1)
  /\ searchUser noMatches plainView "query.empty" sampleDb tom "admin" (val "") None
     = Throw (BadRequestError "Method not allowed for this role.")
  /\ searchUser noMatches plainView "query.empty" sampleDb tom "student" undefined None
     = Throw TypeError.
Proof. repeat split. Qed.

(* ===================================================================== *)
(** ** Properties of the user controller                                 *)
(* ===================================================================== *)

(** What [cleanUserObject] computes: the password is blank, and the uid
    survives exactly when the viewer is the subject. *)
Lemma cleanUserObject_spec id user currentUser :
  password (cleanUserObject id user currentUser) = val "" /\
  uid (cleanUserObject id user currentUser)
  = if String.eqb (_id currentUser) id then uid user else null.
Proof.
  unfold cleanUserObject.
  destruct (String.eqb (_id currentUser) id); simpl.
  - split; reflexivity.
  - destruct (String.eqb (role currentUser) "teacher") eqn:Ht; simpl.
    + apply String.eqb_eq in Ht. rewrite Ht. simpl. split; reflexivity.
    + split; reflexivity.
Qed.

(** C1: a teacher who views another user gets that user's uid nulled by
    [cleanUserObject], and so does an admin, although the password is
    blanked as stated: the role test of line 503 holds for every role. *)
Theorem cleanUserObject_elevated_viewer_loses_uid :
  uid (cleanUserObject "s1" sam tom) = null /\
  uid (cleanUserObject "s1" sam alice) = null /\
  password (cleanUserObject "s1" sam tom) = val "" /\
  uid sam = val "300" /\ role tom = "teacher" /\ role alice = "admin".
Proof. repeat split. Qed.

(** C2: [searchUser] with the role [student] and the empty query string
    throws nothing: it runs the search and returns its result. *)
Theorem searchUser_empty_query_not_rejected
        findWhere forUser queryEmptyCode db currentUser limit :
  exists r,
    searchUser findWhere forUser queryEmptyCode db currentUser "student" (val "") limit
    = Ok r.
Proof. eexists. reflexivity. Qed.

(** No trimmed query reaches the empty-query rejection, whatever the
    string. *)
Lemma searchUser_never_query_empty
      findWhere forUser queryEmptyCode db currentUser role_ q limit :
  (role_ = "student" \/ role_ = "teacher") ->
  isOk (searchUser findWhere forUser queryEmptyCode db currentUser role_ (val q) limit)
  = true.
Proof. intros [-> | ->]; reflexivity. Qed.

(** *** updateUser *)

Lemma knownRole_iff r :
  knownRole r = true <-> In r ["student"; "teacher"; "admin"].
Proof.
  unfold knownRole, hasOwnProperty, editLevels. cbn [existsb fst In].
  rewrite !orb_true_iff, !String.eqb_eq. intuition congruence.
Qed.

Lemma knownRole_false_iff r :
  knownRole r = false <-> ~ In r ["student"; "teacher"; "admin"].
Proof.
  rewrite <- knownRole_iff. destruct (knownRole r); intuition congruence.
Qed.

(** Case analysis on the guards of [updateUser], one at a time. *)
Ltac guard_cases :=
  repeat match goal with
         | |- context [throwIf ?c _] =>
             let E := fresh "G" in destruct c eqn:E; cbn [throwIf bind]
         | |- context [match findById ?i ?d with _ => _ end] =>
             let E := fresh "F" in destruct (findById i d) eqn:E; cbn [bind]
         | |- context [if negb ?c then _ else _] =>
             let E := fresh "A" in destruct c eqn:E; cbn [negb bind]
         end.

(** The email query finds something exactly when a document with another
    id holds the email. *)
Lemma findSameEmail_found db email_ exceptId :
  (0 <? List.length (findSameEmail db email_ exceptId))%nat = true
  <-> emailTakenBesides db exceptId email_.
Proof.
  unfold findSameEmail, emailTakenBesides.
  induction db as [|u db IH]; cbn [filter].
  - simpl. split; [discriminate | intros (u & [] & _)].
  - destruct (String.eqb (email u) email_ && negb (String.eqb (_id u) exceptId)) eqn:E.
    + split; [intros _ | reflexivity].
      apply andb_true_iff in E. destruct E as [E1 E2].
      apply String.eqb_eq in E1. apply negb_true_iff, String.eqb_neq in E2.
      exists u. simpl. auto.
    + rewrite IH. split.
      * intros (v & Hin & He & Hi). exists v. simpl. auto.
      * intros (v & [<- | Hin] & He & Hi).
        -- apply andb_false_iff in E. destruct E as [E | E].
           ++ apply String.eqb_neq in E. contradiction.
           ++ apply negb_false_iff, String.eqb_eq in E. contradiction.
        -- exists v. auto.
Qed.

(** The roles let through by [@Authorized] are those with an edit level. *)
Lemma authorized_knownRole currentUser :
  authorizedForUpdate currentUser = true -> knownRole (role currentUser) = true.
Proof.
  unfold authorizedForUpdate. cbn [existsb].
  rewrite !orb_true_iff, !String.eqb_eq. intros H.
  apply knownRole_iff. cbn [In]. intuition congruence.
Qed.

Section UpdateFacts.
Variable isValidPassword : IUser -> JsOpt string -> bool.
Variable applyUpdate : IUser -> IUser -> IUser.
Variable forUser : IUser -> IUser -> IUser.

(** The password step throws nothing but the invalid-password rejection
    or a [TypeError]. *)
Lemma checkPassword_throws oldUser newUser e :
  checkPassword isValidPassword oldUser newUser = Throw e ->
  e = TypeError \/ e = BadRequestError "Invalid current password!".
Proof.
  unfold checkPassword.
  destruct (password newUser); try (intros H; inversion H; auto; fail).
  destruct (String.length s =? 0)%nat; try discriminate.
  destruct (isValidPassword oldUser (currentPassword newUser)); simpl;
    intros H; inversion H; auto.
Qed.

(** What the last two steps of [updateUser] can throw. *)
Lemma update_tail_throws db id oldUser newUser currentUser e :
  bind (checkPassword isValidPassword oldUser newUser)
       (fun newUser =>
          match findOneAndUpdate applyUpdate id newUser db with
          | (Some updatedUser, db') => Ok (forUser updatedUser currentUser, db')
          | (None, _) => Throw TypeError
          end) = Throw e ->
  e = TypeError \/ e = BadRequestError "Invalid current password!".
Proof.
  destruct (checkPassword isValidPassword oldUser newUser) eqn:E; simpl.
  - destruct (findOneAndUpdate applyUpdate id a db) as [[u|] db'];
      intros H; inversion H; auto.
  - intros H; inversion H; subst. eapply checkPassword_throws; eauto.
Qed.

(** Closes a goal whose hypothesis says that the last two steps threw an
    error they cannot throw. *)
Ltac tail_absurd :=
  let H := fresh in
  intros H; apply update_tail_throws in H; destruct H; discriminate.

(** The first guard decides the invalid-role rejection. *)
Lemma update_invalid_role_iff db id newUser currentUser :
  updateUser isValidPassword applyUpdate forUser db id newUser currentUser
  = Throw invalidRoleError
  <-> knownRole (role newUser) = false.
Proof.
  unfold knownRole, invalidRoleError.
  destruct (hasOwnProperty editLevels (role newUser)) eqn:K.
  - split; [ | discriminate ].
    unfold updateUser. rewrite K. cbn [negb throwIf bind].
    guard_cases; try discriminate; tail_absurd.
  - split; [ reflexivity | intros _ ].
    unfold updateUser. rewrite K. reflexivity.
Qed.
(** Once the three guards before it pass, the email query decides the
    duplicate-email rejection. *)
Lemma update_duplicate_email_iff db id newUser currentUser :
  knownRole (role newUser) = true ->
  knownRole (role currentUser) = true ->
  String.eqb id (_id currentUser)
  && negb (String.eqb (role currentUser) (role newUser)) = false ->
  (updateUser isValidPassword applyUpdate forUser db id newUser currentUser
   = Throw duplicateEmailError
   <-> emailTakenBesides db (_id newUser) (email newUser)).
Proof.
  unfold knownRole. intros K1 K2 S.
  rewrite <- findSameEmail_found.
  unfold updateUser, duplicateEmailError.
  rewrite K1, K2, S. cbn [negb throwIf bind].
  destruct (0 <? List.length (findSameEmail db (email newUser) (_id newUser)))%nat;
    cbn [throwIf bind].
  - split; reflexivity.
  - split; [ | discriminate ].
    guard_cases; try discriminate; tail_absurd.
Qed.

(** A self-update that changes the role stops at one of the first three
    guards. *)
Lemma update_self_role_change db id newUser currentUser :
  knownRole (role currentUser) = true ->
  id = _id currentUser ->
  role newUser <> role currentUser ->
  updateUser isValidPassword applyUpdate forUser db id newUser currentUser
  = Throw (if knownRole (role newUser) then ownRoleError else invalidRoleError).
Proof.
  unfold knownRole. intros K -> Hne.
  unfold updateUser.
  destruct (hasOwnProperty editLevels (role newUser)); cbn [negb throwIf bind].
  - rewrite K. cbn [negb throwIf bind].
    rewrite String.eqb_refl.
    assert (E : String.eqb (role currentUser) (role newUser) = false)
      by (apply String.eqb_neq; congruence).
    rewrite E. reflexivity.
  - reflexivity.
Qed.

(** A self-update that keeps the role is never stopped by the own-role
    guard. *)
Lemma update_same_role_not_own_role_error db id newUser currentUser :
  role newUser = role currentUser ->
  updateUser isValidPassword applyUpdate forUser db id newUser currentUser
  <> Throw ownRoleError.
Proof.
  intros Hr. unfold updateUser, ownRoleError. rewrite Hr, String.eqb_refl.
  rewrite andb_false_r.
  guard_cases; try discriminate; tail_absurd.
Qed.

(** An actor who is not an admin and passes the earlier guards is
    refused any change of role or uid on another user. *)
Lemma update_non_admin_forbidden db id newUser currentUser oldUser :
  knownRole (role newUser) = true ->
  knownRole (role currentUser) = true ->
  role currentUser <> "admin" ->
  id <> _id currentUser ->
  ~ emailTakenBesides db (_id newUser) (email newUser) ->
  findById id db = Some oldUser ->
  knownRole (role oldUser) = true ->
  role newUser <> role oldUser \/ strictEq (uid newUser) (uid oldUser) = false ->
  isForbidden
    (updateUser isValidPassword applyUpdate forUser db id newUser currentUser)
  = true.
Proof.
  unfold knownRole. intros K1 K2 Hna Hself Hmail Hold K3 Hchg.
  unfold updateUser. rewrite K1, K2. cbn [negb throwIf bind].
  assert (E1 : String.eqb id (_id currentUser) = false) by (now apply String.eqb_neq).
  rewrite E1. cbn [andb throwIf bind].
  rewrite <- findSameEmail_found in Hmail.
  apply not_true_is_false in Hmail. rewrite Hmail. cbn [throwIf bind].
  rewrite Hold. cbn [bind]. rewrite K3. cbn [negb throwIf bind].
  unfold checkPrivileges. cbn [userIsAdmin].
  assert (E2 : String.eqb (role currentUser) "admin" = false) by (now apply String.eqb_neq).
  rewrite E2. cbn [negb].
  destruct (getProperty editLevels (role currentUser)
            <=? getProperty editLevels (role oldUser))%Z; cbn [andb negb throwIf bind];
    [ reflexivity | ].
  destruct (String.eqb (role newUser) (role oldUser)) eqn:E3; cbn [negb throwIf bind];
    [ | reflexivity ].
  destruct Hchg as [Hr | Hu].
  - apply String.eqb_eq in E3. contradiction.
  - rewrite Hu. reflexivity.
Qed.

(** An admin is never answered with a forbidden error. *)
Lemma update_admin_never_forbidden db id newUser currentUser :
  role currentUser = "admin" ->
  isForbidden
    (updateUser isValidPassword applyUpdate forUser db id newUser currentUser)
  = false.
Proof.
  intros Ha. unfold updateUser, checkPrivileges. cbn [userIsAdmin].
  rewrite Ha. cbn [String.eqb Ascii.eqb Bool.eqb andb negb].
  match goal with
  | |- isForbidden ?r = false => destruct r as [a | e] eqn:E; [ reflexivity | ]
  end.
  destruct e; try reflexivity. exfalso. revert E.
  guard_cases; try discriminate; tail_absurd.
Qed.

Lemma checkPassword_set_uid oldUser newUser v :
  checkPassword isValidPassword oldUser (set_uid newUser v)
  = match checkPassword isValidPassword oldUser newUser with
    | Ok p => Ok (set_uid p v)
    | Throw e => Throw e
    end.
Proof.
  unfold checkPassword. cbn [set_uid password currentPassword].
  destruct (password newUser); try reflexivity.
  destruct (String.length s =? 0)%nat; try reflexivity.
  destruct (isValidPassword oldUser (currentPassword newUser)); reflexivity.
Qed.

Lemma checkPassword_keeps oldUser newUser p :
  checkPassword isValidPassword oldUser newUser = Ok p ->
  role p = role newUser /\ uid p = uid newUser.
Proof.
  unfold checkPassword.
  destruct (password newUser); try discriminate.
  - intros H; inversion H; auto.
  - destruct (String.length s =? 0)%nat.
    + intros H; inversion H; auto.
    + destruct (isValidPassword oldUser (currentPassword newUser)); simpl;
        try discriminate.
      intros H; inversion H; auto.
Qed.

(** An admin who passes the guards on email, old role and password gets
    the payload applied, with the role of the payload and the kept uid. *)
Lemma update_admin_permitted db id newUser currentUser oldUser p :
  knownRole (role newUser) = true ->
  role currentUser = "admin" ->
  (id = _id currentUser -> role newUser = "admin") ->
  ~ emailTakenBesides db (_id newUser) (email newUser) ->
  findById id db = Some oldUser ->
  knownRole (role oldUser) = true ->
  checkPassword isValidPassword oldUser newUser = Ok p ->
  let applied := set_uid p (keptUid oldUser newUser) in
  updateUser isValidPassword applyUpdate forUser db id newUser currentUser
  = Ok (forUser (applyUpdate oldUser applied) currentUser,
        replaceById id (applyUpdate oldUser applied) db)
  /\ role applied = role newUser
  /\ uid applied = keptUid oldUser newUser.
Proof.
  intros K1 Ha Hself Hmail Hold K3 Hp applied. unfold knownRole in K1, K3.
  split; [ | split ].
  - unfold updateUser, checkPrivileges. cbn [userIsAdmin].
    rewrite K1, Ha. cbn [negb throwIf bind].
    change (hasOwnProperty editLevels "admin") with true. cbn [negb throwIf bind].
    assert (E : String.eqb id (_id currentUser) && negb (String.eqb "admin" (role newUser))
                = false).
    { destruct (String.eqb id (_id currentUser)) eqn:E1; [ | reflexivity ].
      apply String.eqb_eq in E1. rewrite (Hself E1). reflexivity. }
    rewrite E. cbn [throwIf bind].
    rewrite <- findSameEmail_found in Hmail.
    apply not_true_is_false in Hmail. rewrite Hmail. cbn [throwIf bind].
    rewrite Hold. cbn [bind]. rewrite K3. cbn [negb throwIf bind].
    change (String.eqb "admin" "admin") with true. cbn [negb bind].
    unfold findOneAndUpdate. subst applied. unfold keptUid.
    destruct (truthy (uid oldUser) && strictEq (uid newUser) null).
    + rewrite checkPassword_set_uid, Hp. cbn [bind]. rewrite Hold. reflexivity.
    + rewrite Hp. cbn [bind]. rewrite Hold.
      destruct (checkPassword_keeps _ _ _ Hp) as [_ Hu].
      replace (set_uid p (uid newUser)) with p; [ reflexivity | ].
      destruct p; cbn in *. subst. reflexivity.
  - subst applied. cbn [set_uid role]. apply (checkPassword_keeps _ _ _ Hp).
  - reflexivity.
Qed.
End UpdateFacts.

(** *** deleteUser *)

Lemma findAdmins_In db u :
  In u (findAdmins db) <-> In u db /\ role u = "admin".
Proof.
  unfold findAdmins. rewrite filter_In, String.eqb_eq. reflexivity.
Qed.

Lemma NoDup_ids_filter (f : IUser -> bool) db :
  NoDup (map _id db) -> NoDup (map _id (filter f db)).
Proof.
  induction db as [|u db IH]; simpl; intros H; [ constructor | ].
  inversion H as [|? ? Hnin Hnd]; subst.
  destruct (f u); simpl; auto.
  constructor; auto.
  intros Hin. apply Hnin.
  apply in_map_iff in Hin. destruct Hin as (v & Hv & Hin).
  apply filter_In in Hin. apply in_map_iff. exists v. tauto.
Qed.

(** With distinct ids, the admin query returns exactly the target when,
    and only when, the target is the sole admin. *)
Lemma findAdmins_sole db id :
  NoDup (map _id db) ->
  (exists u, findAdmins db = [u] /\ _id u = id) <-> soleAdmin db id.
Proof.
  intros Hnd. unfold soleAdmin. split.
  - intros (u & Hl & Hid). split.
    + exists u. assert (Hin : In u (findAdmins db)) by (rewrite Hl; simpl; auto).
      apply findAdmins_In in Hin. tauto.
    + intros v Hv Hr.
      assert (Hin : In v (findAdmins db)) by (apply findAdmins_In; auto).
      rewrite Hl in Hin. destruct Hin as [<- | []]. exact Hid.
  - intros ((u & Hu & Hid & Hr) & Hall).
    assert (Hin : In u (findAdmins db)) by (apply findAdmins_In; auto).
    assert (Hids : forall v, In v (findAdmins db) -> _id v = id).
    { intros v Hv. apply findAdmins_In in Hv. apply Hall; tauto. }
    pose proof (NoDup_ids_filter (fun u => String.eqb (role u) "admin") db Hnd) as Hnd'.
    fold (findAdmins db) in Hnd'.
    destruct (findAdmins db) as [|a [|b l]].
    + destruct Hin.
    + exists a. split; [ reflexivity | apply Hids; simpl; auto ].
    + exfalso. simpl in Hnd'. inversion Hnd' as [|? ? Hnin _]; subst.
      apply Hnin. left.
      rewrite (Hids a), (Hids b); simpl; auto.
Qed.

(** What [deleteUser] returns, by the outcome of the admin query. *)
Lemma deleteUser_cases db id :
  (exists u, findAdmins db = [u] /\ _id u = id /\ deleteUser db id = Throw lastAdminError)
  \/ ((forall u, findAdmins db = [u] -> _id u <> id)
      /\ deleteUser db id = Ok (mkDeleteResult true, findByIdAndRemove id db)).
Proof.
  unfold deleteUser.
  destruct (findAdmins db) as [|a [|b l]] eqn:E.
  - right. split; [ discriminate | reflexivity ].
  - assert (Ha : role a = "admin").
    { assert (Hin : In a (findAdmins db)) by (rewrite E; simpl; auto).
      apply findAdmins_In in Hin. tauto. }
    destruct (String.eqb (_id a) id) eqn:Ei.
    + left. exists a. apply String.eqb_eq in Ei.
      rewrite Ha. repeat split; auto.
    + right. apply String.eqb_neq in Ei. split; [ | reflexivity ].
      intros u Hu. inversion Hu; subst. exact Ei.
  - right. split; [ discriminate | reflexivity ].
Qed.

(** With distinct ids, removal by id leaves exactly the other documents. *)
Lemma findByIdAndRemove_In db id u :
  NoDup (map _id db) ->
  (In u (findByIdAndRemove id db) <-> In u db /\ _id u <> id).
Proof.
  induction db as [|v db IH]; simpl; intros Hnd; [ tauto | ].
  inversion Hnd as [|? ? Hnin Hnd']; subst.
  destruct (String.eqb (_id v) id) eqn:E.
  - apply String.eqb_eq in E. split.
    + intros Hin. split; auto. intros Hu. apply Hnin.
      rewrite E, <- Hu. now apply in_map.
    + intros [[-> | Hin] Hne]; [ contradiction | assumption ].
  - apply String.eqb_neq in E. simpl. rewrite (IH Hnd'). split.
    + intros [<- | [Hin Hne]]; auto.
    + intros [[<- | Hin] Hne]; auto.
Qed.

(** *** The rules of the controller *)

(** C3: once the payload's role and the actor's role have an edit level
    and the call is not a change of one's own role, [updateUser] answers
    with the duplicate-email error exactly when a document whose id is not
    the payload's [_id] holds the payload's email.  The document excluded
    from the check is the one named by the payload. *)
Theorem updateUser_duplicate_email_rule
        isValidPassword applyUpdate forUser db id newUser currentUser :
  knownRole (role newUser) = true ->
  knownRole (role currentUser) = true ->
  String.eqb id (_id currentUser)
  && negb (String.eqb (role currentUser) (role newUser)) = false ->
  (updateUser isValidPassword applyUpdate forUser db id newUser currentUser
   = Throw duplicateEmailError
   <-> emailTakenBesides db (_id newUser) (email newUser)).
Proof. apply update_duplicate_email_iff. Qed.

(** Sam keeps his own email in an update of his own record: both sides of
    the rule are false, and the update goes through. *)
Lemma updateUser_duplicate_email_rule_witness :
  (updateUser noPasswordCheck overwrite plainView sampleDb "s1" sam sam
   = Throw duplicateEmailError
   <-> emailTakenBesides sampleDb (_id sam) (email sam))
  /\ updateUser noPasswordCheck overwrite plainView sampleDb "s1" sam sam
     = Ok (sam, sampleDb).
Proof.
  split.
  - apply (updateUser_duplicate_email_rule
             noPasswordCheck overwrite plainView sampleDb "s1" sam sam);
      reflexivity.
  - reflexivity.
Defined.

(** The wording of C3 fails twice.  A payload of role [tutor] with
    Tom's email, sent for Sam's record, is answered with the invalid-role
    error although another record holds the email; and a payload that
    keeps Sam's email but carries Tom's [_id], sent for Sam's record, is
    answered with the duplicate-email error although no record other than
    Sam's holds that email. *)
Lemma updateUser_duplicate_email_counterexample :
  let taken := mkUser "s1" (val "300") "tom@test.local" undefined undefined "tutor" in
  let own := mkUser "t1" (val "300") "sam@test.local" undefined undefined "student" in
  ~ (updateUser noPasswordCheck overwrite plainView sampleDb "s1" taken alice
     = Throw duplicateEmailError
     <-> emailTakenBesides sampleDb "s1" (email taken))
  /\ ~ (updateUser noPasswordCheck overwrite plainView sampleDb "s1" own alice
        = Throw duplicateEmailError
        <-> emailTakenBesides sampleDb "s1" (email own)).
Proof.
  cbv zeta. split.
  - intros [_ H].
    assert (E : emailTakenBesides sampleDb "s1" "tom@test.local").
    { exists tom. simpl. repeat split; auto. discriminate. }
    specialize (H E). discriminate H.
  - intros [H _].
    destruct (H eq_refl) as (u & Hin & He & Hi).
    simpl in Hin. destruct Hin as [<- | [<- | [<- | []]]];
      simpl in He, Hi; try discriminate He. apply Hi. reflexivity.
Qed.

(** C4: [updateUser] answers with the invalid-role error exactly when the
    payload's role is none of [student], [teacher], [admin], the roles
    that have an edit level. *)
Theorem updateUser_invalid_role_rule
        isValidPassword applyUpdate forUser db id newUser currentUser :
  updateUser isValidPassword applyUpdate forUser db id newUser currentUser
  = Throw invalidRoleError
  <-> ~ In (role newUser) ["student"; "teacher"; "admin"].
Proof.
  rewrite update_invalid_role_iff. apply knownRole_false_iff.
Qed.

(** The wording of C4 fails at the role [tutor]: it is one of the
    four enumerated roles, and a payload carrying it is answered with the
    invalid-role error. *)
Lemma updateUser_invalid_role_counterexample :
  let payload := mkUser "s1" (val "300") "sam@test.local" undefined undefined "tutor" in
  ~ (updateUser noPasswordCheck overwrite plainView sampleDb "s1" payload alice
     = Throw invalidRoleError
     <-> ~ In (role payload) ["student"; "teacher"; "tutor"; "admin"]).
Proof.
  cbv zeta. intros [H _]. apply (H eq_refl). simpl. auto.
Qed.

(** C5: for an actor let in by [@Authorized] who updates the own record,
    a payload with another role is answered with a bad-request error (the
    own-role error when the payload's role has an edit level, the
    invalid-role error otherwise), whatever the actor's role; a payload
    with the actor's role is never answered with the own-role error. *)
Theorem updateUser_own_role_rule
        isValidPassword applyUpdate forUser db id newUser currentUser :
  authorizedForUpdate currentUser = true ->
  id = _id currentUser ->
  (role newUser <> role currentUser ->
   updateUser isValidPassword applyUpdate forUser db id newUser currentUser
   = Throw (if knownRole (role newUser) then ownRoleError else invalidRoleError)
   /\ isBadRequest
        (updateUser isValidPassword applyUpdate forUser db id newUser currentUser)
      = true)
  /\ (role newUser = role currentUser ->
      updateUser isValidPassword applyUpdate forUser db id newUser currentUser
      <> Throw ownRoleError).
Proof.
  intros Ha Hid. apply authorized_knownRole in Ha. split.
  - intros Hne.
    rewrite (update_self_role_change isValidPassword applyUpdate forUser
               db id newUser currentUser Ha Hid Hne).
    split; [ reflexivity | ].
    destruct (knownRole (role newUser)); reflexivity.
  - intros Hr.
    exact (update_same_role_not_own_role_error isValidPassword applyUpdate forUser
             db id newUser currentUser Hr).
Qed.

(** Alice, an admin, asks to become a student and is refused; the same
    payload with her own role and a new email is applied. *)
Lemma updateUser_own_role_rule_witness :
  let demote := mkUser "a1" (val "100") "alice@test.local" undefined undefined "student" in
  let rename := mkUser "a1" (val "100") "alice@new.local" undefined undefined "admin" in
  (updateUser noPasswordCheck overwrite plainView sampleDb "a1" demote alice
   = Throw ownRoleError
   /\ isBadRequest
        (updateUser noPasswordCheck overwrite plainView sampleDb "a1" demote alice)
      = true)
  /\ updateUser noPasswordCheck overwrite plainView sampleDb "a1" rename alice
     <> Throw ownRoleError
  /\ updateUser noPasswordCheck overwrite plainView sampleDb "a1" rename alice
     = Ok (rename, [rename; tom; sam]).
Proof.
  cbv zeta. split; [ | split ].
  - apply (updateUser_own_role_rule noPasswordCheck overwrite plainView sampleDb "a1"
             (mkUser "a1" (val "100") "alice@test.local" undefined undefined "student")
             alice eq_refl eq_refl).
    discriminate.
  - apply (updateUser_own_role_rule noPasswordCheck overwrite plainView sampleDb "a1"
             (mkUser "a1" (val "100") "alice@new.local" undefined undefined "admin")
             alice eq_refl eq_refl).
    reflexivity.
  - reflexivity.
Defined.

(** C6: an authorized actor updates another, stored user, and the guards
    on the payload's role, the email and the stored role pass.  If the
    actor is not an admin, a payload whose role or uid differs from the
    stored one is answered with a forbidden error.  If the actor is an
    admin, no forbidden error is raised, and as soon as the password step
    passes the payload is applied with its own role and with its uid (the
    stored uid when the payload would clear a uid that is set). *)
Theorem updateUser_role_uid_change_rule
        isValidPassword applyUpdate forUser db id newUser currentUser oldUser :
  knownRole (role newUser) = true ->
  authorizedForUpdate currentUser = true ->
  id <> _id currentUser ->
  ~ emailTakenBesides db (_id newUser) (email newUser) ->
  findById id db = Some oldUser ->
  knownRole (role oldUser) = true ->
  (role currentUser <> "admin" ->
   role newUser <> role oldUser \/ strictEq (uid newUser) (uid oldUser) = false ->
   isForbidden
     (updateUser isValidPassword applyUpdate forUser db id newUser currentUser)
   = true)
  /\ (role currentUser = "admin" ->
      isForbidden
        (updateUser isValidPassword applyUpdate forUser db id newUser currentUser)
      = false
      /\ forall p,
          checkPassword isValidPassword oldUser newUser = Ok p ->
          let applied := set_uid p (keptUid oldUser newUser) in
          updateUser isValidPassword applyUpdate forUser db id newUser currentUser
          = Ok (forUser (applyUpdate oldUser applied) currentUser,
                replaceById id (applyUpdate oldUser applied) db)
          /\ role applied = role newUser
          /\ uid applied = keptUid oldUser newUser).
Proof.
  intros K1 Ha Hself Hmail Hold K3. split.
  - intros Hna Hchg.
    apply (update_non_admin_forbidden isValidPassword applyUpdate forUser
             db id newUser currentUser oldUser); auto.
    now apply authorized_knownRole.
  - intros Hadm. split.
    + now apply update_admin_never_forbidden.
    + intros p Hp.
      apply (update_admin_permitted isValidPassword applyUpdate forUser
               db id newUser currentUser oldUser p); auto.
      intros Hid. contradiction.
Qed.

(** Tom, a teacher, may not give Sam another uid; Alice, an admin, may,
    and may also make Sam a teacher. *)
Lemma updateUser_role_uid_change_rule_witness :
  let reuid := mkUser "s1" (val "301") "sam@test.local" undefined undefined "student" in
  let promote := mkUser "s1" (val "301") "sam@test.local" undefined undefined "teacher" in
  isForbidden (updateUser noPasswordCheck overwrite plainView sampleDb "s1" reuid tom)
  = true
  /\ isForbidden (updateUser noPasswordCheck overwrite plainView sampleDb "s1" promote alice)
     = false
  /\ updateUser noPasswordCheck overwrite plainView sampleDb "s1" promote alice
     = Ok (promote, [alice; tom; promote]).
Proof.
  cbv zeta.
  assert (Hmail : forall r,
             ~ emailTakenBesides sampleDb "s1" (email (mkUser "s1" (val "301")
                 "sam@test.local" undefined undefined r))).
  { intros r (u & Hin & He & Hi).
    simpl in Hin. destruct Hin as [<- | [<- | [<- | []]]];
      simpl in He, Hi; try discriminate He. apply Hi. reflexivity. }
  split; [ | split ].
  - apply (updateUser_role_uid_change_rule noPasswordCheck overwrite plainView
             sampleDb "s1"
             (mkUser "s1" (val "301") "sam@test.local" undefined undefined "student")
             tom sam eq_refl eq_refl).
    + discriminate.
    + apply Hmail.
    + reflexivity.
    + reflexivity.
    + discriminate.
    + right. reflexivity.
  - apply (updateUser_role_uid_change_rule noPasswordCheck overwrite plainView
             sampleDb "s1"
             (mkUser "s1" (val "301") "sam@test.local" undefined undefined "teacher")
             alice sam eq_refl eq_refl).
    + discriminate.
    + apply Hmail.
    + reflexivity.
    + reflexivity.
    + reflexivity.
  - reflexivity.
Defined.

(** The wording of C6 fails when an earlier guard stops the call:
    Tom, a teacher, sends for Sam's record a payload of role [tutor],
    which differs from the stored role [student], and the answer is the
    invalid-role bad request, not a forbidden error. *)
Lemma updateUser_role_uid_change_counterexample :
  let payload := mkUser "s1" (val "300") "sam@test.local" undefined undefined "tutor" in
  role tom <> "admin"
  /\ "s1" <> _id tom
  /\ findById "s1" sampleDb = Some sam
  /\ role payload <> role sam
  /\ updateUser noPasswordCheck overwrite plainView sampleDb "s1" payload tom
     = Throw invalidRoleError
  /\ isForbidden (updateUser noPasswordCheck overwrite plainView sampleDb "s1" payload tom)
     = false.
Proof.
  cbv zeta. repeat split; discriminate.
Qed.

(** C7: in a collection with distinct ids, [deleteUser] answers with the
    bad-request error exactly when the target is the sole user of role
    [admin]; in every other case it returns [{result: true}] and the
    collection is left with exactly the documents of another id. *)
Theorem deleteUser_sole_admin_rule db id :
  NoDup (map _id db) ->
  (deleteUser db id = Throw lastAdminError <-> soleAdmin db id)
  /\ (~ soleAdmin db id ->
      deleteUser db id = Ok (mkDeleteResult true, findByIdAndRemove id db)
      /\ forall u, In u (findByIdAndRemove id db) <-> In u db /\ _id u <> id).
Proof.
  intros Hnd. rewrite <- (findAdmins_sole db id Hnd).
  destruct (deleteUser_cases db id) as [(u & Hl & Hid & Hr) | [Hno Hr]].
  - split.
    + split; [ intros _; exists u; auto | intros _; exact Hr ].
    + intros Hn. exfalso. apply Hn. exists u. auto.
  - split.
    + split.
      * rewrite Hr. discriminate.
      * intros (u & Hl & Hid). exfalso. exact (Hno u Hl Hid).
    + intros _. split; [ exact Hr | ].
      intros u. now apply findByIdAndRemove_In.
Qed.

(** With Alice as the only admin her deletion is refused and Tom's is
    carried out; with a second admin Alice's deletion is carried out. *)
Lemma deleteUser_sole_admin_rule_witness :
  let ann := sampleUser "a2" "admin" "ann@test.local" (val "101") in
  deleteUser sampleDb "a1" = Throw lastAdminError
  /\ deleteUser sampleDb "t1" = Ok (mkDeleteResult true, [alice; sam])
  /\ deleteUser (ann :: sampleDb) "a1" = Ok (mkDeleteResult true, [ann; tom; sam]).
Proof.
  cbv zeta.
  assert (Hnd : NoDup (map _id sampleDb)).
  { simpl. repeat constructor; simpl; intuition discriminate. }
  split; [ | split ].
  - apply (deleteUser_sole_admin_rule sampleDb "a1" Hnd).
    split.
    + exists alice. simpl. auto.
    + intros v Hin Hr. simpl in Hin.
      destruct Hin as [<- | [<- | [<- | []]]]; try reflexivity; discriminate Hr.
  - reflexivity.
  - reflexivity.
Defined.

(* ===================================================================== *)
(** ** Properties of the course media component                          *)
(* ===================================================================== *)

(** *** The order on names and [sortFnc] *)

Lemma ascii_compare_trans_le a b c :
  Ascii.compare a b <> Gt -> Ascii.compare b c <> Gt -> Ascii.compare a c <> Gt.
Proof.
  unfold Ascii.compare.
  intros H1 H2.
  change (N_of_ascii a <= N_of_ascii c)%N.
  change (N_of_ascii a <= N_of_ascii b)%N in H1.
  change (N_of_ascii b <= N_of_ascii c)%N in H2.
  lia.
Qed.

Lemma string_compare_trans_le s1 :
  forall s2 s3,
    String.compare s1 s2 <> Gt -> String.compare s2 s3 <> Gt ->
    String.compare s1 s3 <> Gt.
Proof.
  induction s1 as [|a s1 IH]; intros [|b s2] [|c s3]; simpl; try congruence.
  destruct (Ascii.compare a b) eqn:Eab; try congruence.
  - apply Ascii.compare_eq_iff in Eab. subst b.
    destruct (Ascii.compare a c) eqn:Eac; try congruence.
    apply IH.
  - destruct (Ascii.compare b c) eqn:Ebc; try congruence.
    + apply Ascii.compare_eq_iff in Ebc. subst c. rewrite Eab. congruence.
    + intros _ _.
      assert (H : Ascii.compare a c <> Gt).
      { apply (ascii_compare_trans_le a b c); congruence. }
      destruct (Ascii.compare a c) eqn:Eac; try congruence.
      apply Ascii.compare_eq_iff in Eac. subst c.
      rewrite Ascii.compare_antisym, Eab in Ebc. discriminate.
Qed.

Lemma string_leb_trans s1 s2 s3 :
  String.leb s1 s2 = true -> String.leb s2 s3 = true -> String.leb s1 s3 = true.
Proof.
  unfold String.leb. intros H1 H2.
  pose proof (string_compare_trans_le s1 s2 s3) as H.
  destruct (String.compare s1 s2), (String.compare s2 s3),
    (String.compare s1 s3); try reflexivity; try discriminate;
    exfalso; apply H; congruence.
Qed.

(** [sortFnc] leaves [a] before [b] exactly when [a]'s name is not above
    [b]'s in the case-insensitive order. *)
Lemma sortFnc_leb {A} `{Named A} (a b : A) :
  (sortFnc a b <=? 0)%Z
  = String.leb (toLowerCase (name a)) (toLowerCase (name b)).
Proof.
  unfold sortFnc, strLt, strGt, String.ltb, String.leb.
  rewrite (String.compare_antisym (toLowerCase (name b))).
  destruct (String.compare (toLowerCase (name a)) (toLowerCase (name b)));
    reflexivity.
Qed.

Lemma nameLe_trans {A} `{Named A} (a b c : A) :
  nameLe a b -> nameLe b c -> nameLe a c.
Proof. unfold nameLe. apply string_leb_trans. Qed.

Lemma nameLe_total {A} `{Named A} (a b : A) : nameLe a b \/ nameLe b a.
Proof. unfold nameLe. apply String.leb_total. Qed.

(** *** [Array.prototype.sort] with [sortFnc] *)

Section SortFacts.
Context {A : Type} `{Named A}.

Lemma sortInsert_perm (x : A) l :
  Permutation (x :: l) (sortInsert sortFnc x l).
Proof.
  induction l as [|y l IH]; simpl; [ reflexivity | ].
  destruct (sortFnc x y <=? 0)%Z; [ reflexivity | ].
  rewrite perm_swap. now constructor.
Qed.

Lemma sort_perm (l : list A) : Permutation l (sort sortFnc l).
Proof.
  induction l as [|x l IH]; simpl; [ constructor | ].
  rewrite <- sortInsert_perm. now constructor.
Qed.

Lemma sortInsert_sorted (x : A) l :
  StronglySorted nameLe l -> StronglySorted nameLe (sortInsert sortFnc x l).
Proof.
  induction l as [|y l IH]; simpl; intros Hs.
  - repeat constructor.
  - inversion Hs as [|? ? Hl Hy]; subst.
    destruct (sortFnc x y <=? 0)%Z eqn:E.
    + rewrite sortFnc_leb in E.
      constructor; [ assumption | ].
      constructor; [ exact E | ].
      eapply Forall_impl; [ | exact Hy ].
      intros z Hz. eapply nameLe_trans; [ exact E | exact Hz ].
    + rewrite sortFnc_leb in E.
      constructor; [ now apply IH | ].
      eapply Permutation_Forall; [ apply sortInsert_perm | ].
      constructor; [ | assumption ].
      destruct (nameLe_total x y) as [Hxy | Hyx]; [ | assumption ].
      unfold nameLe in Hxy. congruence.
Qed.

Lemma sort_sorted (l : list A) : StronglySorted nameLe (sort sortFnc l).
Proof.
  induction l as [|x l IH]; simpl; [ constructor | now apply sortInsert_sorted ].
Qed.
End SortFacts.

(** *** changeDirectory *)

Section ServiceFacts.
Variable Server : Type.
Variable getDirectory : Server -> string -> bool -> option IDirectory.
Variable deleteFile : Server -> IFile -> Server * bool.

(** What a successful [changeDirectory] leaves behind. *)
Lemma changeDirectory_fetched (w : World Server) mediaId lazy fetched :
  getDirectory (server w) mediaId lazy = Some fetched ->
  changeDirectory Server getDirectory w mediaId lazy
  = (mkWorld (set_currentFolder (component w)
                (Some (mkDirectory (dirId fetched) (dirName fetched)
                                   (sort sortFnc (subDirectories fetched))
                                   (sort sortFnc (files fetched)))))
             (server w) (snackBar w) (deleteCalls w),
     None).
Proof.
  intros Hg. unfold changeDirectory. rewrite Hg. reflexivity.
Qed.

(** [changeDirectory] touches nothing but the current folder. *)
Lemma changeDirectory_frame (w : World Server) mediaId lazy :
  let w' := fst (changeDirectory Server getDirectory w mediaId lazy) in
  server w' = server w /\ snackBar w' = snackBar w
  /\ deleteCalls w' = deleteCalls w
  /\ selectedFiles (component w') = selectedFiles (component w)
  /\ toggleBlocked (component w') = toggleBlocked (component w).
Proof.
  unfold changeDirectory.
  destruct (getDirectory (server w) mediaId lazy); simpl; repeat split.
Qed.

Lemma reloadDirectory_frame (w : World Server) :
  let w' := fst (reloadDirectory Server getDirectory w) in
  server w' = server w /\ snackBar w' = snackBar w
  /\ deleteCalls w' = deleteCalls w
  /\ selectedFiles (component w') = selectedFiles (component w)
  /\ toggleBlocked (component w') = toggleBlocked (component w).
Proof.
  unfold reloadDirectory.
  destruct (currentFolder (component w)).
  - apply changeDirectory_frame.
  - simpl. repeat split.
Qed.

(** *** removeSelectedFile *)

Lemma attempts_files srv selected :
  map fst (attempts deleteFile srv selected) = selected.
Proof.
  revert srv. induction selected as [|f l IH]; intros srv; simpl;
    [ reflexivity | now rewrite IH ].
Qed.

Lemma failedNames_app l1 l2 :
  failedNames (l1 ++ l2) = failedNames l1 ++ failedNames l2.
Proof. unfold failedNames. now rewrite filter_app, map_app. Qed.

(** The loop calls the service once per selected file, in order, and
    collects the names of the rejected calls. *)
Lemma deleteLoop_spec selected :
  forall (w : World Server) filesFailed,
    let calls := attempts deleteFile (server w) selected in
    let out := deleteLoop Server deleteFile w selected filesFailed in
    deleteCalls (fst out) = deleteCalls w ++ calls
    /\ snd out = filesFailed ++ failedNames calls
    /\ snackBar (fst out) = snackBar w
    /\ component (fst out) = component w.
Proof.
  induction selected as [|f l IH]; intros w filesFailed; cbn zeta.
  - simpl. rewrite !app_nil_r. repeat split.
  - cbn [deleteLoop attempts]. unfold callDeleteFile.
    destruct (deleteFile (server w) f) as [srv ok] eqn:E. cbn [fst snd].
    specialize (IH (mkWorld (component w) srv (snackBar w)
                            (deleteCalls w ++ [(f, ok)]))
                   (if ok then filesFailed else push filesFailed (name f))).
    cbn zeta in IH. cbn [server deleteCalls snackBar component] in IH.
    destruct IH as (H1 & H2 & H3 & H4).
    rewrite H1, H2, H3, H4. rewrite <- app_assoc. cbn [app].
    repeat split.
    change ((f, ok) :: attempts deleteFile srv l)
      with ([(f, ok)] ++ attempts deleteFile srv l).
    rewrite failedNames_app.
    destruct ok; unfold push; cbn; [ reflexivity | ].
    now rewrite <- app_assoc.
Qed.

Lemma failedNames_nil calls :
  (List.length (failedNames calls) =? 0)%nat = forallb snd calls.
Proof.
  unfold failedNames.
  induction calls as [|[f ok] l IH]; simpl; [ reflexivity | ].
  destruct ok; simpl; [ exact IH | reflexivity ].
Qed.

(** What a confirmed [removeSelectedFile] does to the call record, to the
    notifications and to the selection. *)
Lemma removeSelectedFile_confirmed (w : World Server) deleteSelectedFiles :
  deleteSelectedFiles <> Some false ->
  let calls := attempts deleteFile (server w) (selectedFiles (component w)) in
  let w' := fst (removeSelectedFile Server getDirectory deleteFile w
                                    deleteSelectedFiles) in
  deleteCalls w' = deleteCalls w ++ calls
  /\ snackBar w'
     = snackBar w
       ++ [if forallb snd calls
           then snackOpen "Removed all selected files"
           else snackOpenLong ("Could not remove: " ++ join ", " (failedNames calls))]
  /\ selectedFiles (component w') = [].
Proof.
  intros Hc calls w'. subst w'. unfold removeSelectedFile.
  assert (E : forall X (a b : X),
             match deleteSelectedFiles with Some false => a | _ => b end = b).
  { intros X a b. destruct deleteSelectedFiles as [[|]|]; congruence. }
  rewrite E. clear E.
  pose proof (deleteLoop_spec (selectedFiles (component w))
                (set_component Server w (set_toggleBlocked (component w) true)) [])
    as Hloop.
  cbn zeta in Hloop.
  cbn [set_component server component deleteCalls snackBar
       set_toggleBlocked selectedFiles] in *.
  fold calls in Hloop.
  destruct (deleteLoop Server deleteFile _ _ _) as [w1 failed] eqn:El.
  cbn [fst snd] in Hloop. destruct Hloop as (H1 & H2 & H3 & H4).
  cbn [app] in H2. subst failed. rewrite failedNames_nil.
  match goal with
  | |- context [reloadDirectory Server getDirectory ?x] =>
      pose proof (reloadDirectory_frame x) as Hf;
      destruct (reloadDirectory Server getDirectory x) as [w2 [err|]]
  end; cbn zeta in Hf; cbn [fst] in *;
    destruct Hf as (_ & F2 & F3 & F4 & _);
    cbn [set_component component snackBar deleteCalls set_toggleBlocked
         selectedFiles] in *;
    rewrite F2, F3, F4;
    destruct (forallb snd calls); unfold notify;
    cbn [snackBar deleteCalls component set_selectedFiles selectedFiles];
    rewrite H1, H3; repeat split.
Qed.
End ServiceFacts.

(** *** toggleSelection *)

(** Membership in a list of file objects, by identity. *)
Lemma indexOfFrom_absent x l :
  forall i, (0 <= i)%Z ->
    (indexOfFrom sameFile x l i =? -1)%Z
    = negb (existsb (fun y => sameFile y x) l).
Proof.
  induction l as [|y l IH]; intros i Hi; simpl; [ reflexivity | ].
  destruct (sameFile y x); simpl.
  - apply Z.eqb_neq. lia.
  - apply IH. lia.
Qed.

Lemma isInSelectedFiles_existsb c file :
  isInSelectedFiles c file
  = existsb (fun y => sameFile y file) (selectedFiles c).
Proof.
  unfold isInSelectedFiles, indexOf.
  rewrite indexOfFrom_absent by lia. apply negb_involutive.
Qed.

(** A found position splits the list at the first object identical to
    the one looked for. *)
Lemma indexOfFrom_found x l :
  forall i, (0 <= i)%Z ->
    existsb (fun y => sameFile y x) l = true ->
    exists l1 y l2,
      l = l1 ++ y :: l2 /\ sameFile y x = true
      /\ indexOfFrom sameFile x l i = (i + Z.of_nat (List.length l1))%Z.
Proof.
  induction l as [|y l IH]; intros i Hi; simpl; [ discriminate | ].
  destruct (sameFile y x) eqn:E; simpl.
  - intros _. exists [], y, l. simpl. repeat split; auto. lia.
  - intros Hex. destruct (IH (i + 1)%Z ltac:(lia) Hex) as (l1 & z & l2 & -> & Hz & Hi').
    exists (y :: l1), z, l2. simpl. repeat split; auto. lia.
Qed.

Lemma removeAt_middle {A} (l1 : list A) y l2 :
  removeAt (List.length l1) (l1 ++ y :: l2) = l1 ++ l2.
Proof. induction l1 as [|z l1 IH]; simpl; [ reflexivity | now rewrite IH ]. Qed.

(** The two shapes of the selection after an unblocked toggle. *)
Lemma toggleSelection_cases c file :
  toggleBlocked c = false ->
  (isInSelectedFiles c file = false
   /\ toggleSelection c file = set_selectedFiles c (selectedFiles c ++ [file]))
  \/ (isInSelectedFiles c file = true
      /\ exists l1 y l2,
          selectedFiles c = l1 ++ y :: l2 /\ fileRef y = fileRef file
          /\ toggleSelection c file = set_selectedFiles c (l1 ++ l2)).
Proof.
  intros Hb. unfold toggleSelection. rewrite Hb.
  fold (isInSelectedFiles c file).
  destruct (isInSelectedFiles c file) eqn:E.
  - right. split; [ reflexivity | ].
    rewrite isInSelectedFiles_existsb in E.
    destruct (indexOfFrom_found file (selectedFiles c) 0%Z ltac:(lia) E)
      as (l1 & y & l2 & Hl & Hy & Hi).
    exists l1, y, l2. split; [ exact Hl | ]. split.
    + now apply Nat.eqb_eq in Hy.
    + unfold indexOf. rewrite Hi. unfold splice1.
      replace (0 + Z.of_nat (List.length l1) <? 0)%Z with false
        by (symmetry; apply Z.ltb_ge; lia).
      rewrite Z.add_0_l, Nat2Z.id, Hl, removeAt_middle. reflexivity.
  - left. split; reflexivity.
Qed.

Lemma existsb_sameFile_ref l file :
  existsb (fun y => sameFile y file) l = true <-> In (fileRef file) (map fileRef l).
Proof.
  rewrite existsb_exists, in_map_iff. unfold sameFile.
  split; intros (y & H1 & H2); exists y.
  - apply Nat.eqb_eq in H2. auto.
  - split; [ tauto | apply Nat.eqb_eq; tauto ].
Qed.

(** Membership looks at the identity of the object only. *)
Lemma isInSelectedFiles_ref c f g :
  fileRef f = fileRef g -> isInSelectedFiles c f = isInSelectedFiles c g.
Proof.
  intros Hr. rewrite !isInSelectedFiles_existsb. unfold sameFile. now rewrite Hr.
Qed.

(** One unblocked toggle on a selection without repetition: the file's
    membership flips, the others' stays, and no repetition appears. *)
Lemma toggleSelection_flip c file :
  selectionDistinct c ->
  toggleBlocked c = false ->
  isInSelectedFiles (toggleSelection c file) file = negb (isInSelectedFiles c file)
  /\ (forall other, fileRef other <> fileRef file ->
        isInSelectedFiles (toggleSelection c file) other = isInSelectedFiles c other)
  /\ selectionDistinct (toggleSelection c file)
  /\ toggleBlocked (toggleSelection c file) = false.
Proof.
  unfold selectionDistinct. intros Hnd Hb.
  destruct (toggleSelection_cases c file Hb)
    as [[Hin ->] | [Hin (l1 & y & l2 & Hl & Hy & ->)]];
    rewrite Hin; rewrite !isInSelectedFiles_existsb in *;
    cbn [set_selectedFiles selectedFiles toggleBlocked negb].
  - repeat split; auto.
    + rewrite existsb_app. simpl. unfold sameFile at 2.
      rewrite Nat.eqb_refl. now rewrite orb_true_r.
    + intros other Hne. rewrite isInSelectedFiles_existsb.
      cbn [set_selectedFiles selectedFiles]. rewrite existsb_app. simpl.
      unfold sameFile at 2.
      replace (fileRef file =? fileRef other)%nat with false
        by (symmetry; apply Nat.eqb_neq; congruence).
      rewrite !orb_false_r. symmetry. apply isInSelectedFiles_existsb.
    + rewrite map_app. simpl. apply NoDup_app; auto.
      * repeat constructor. simpl. tauto.
      * intros r Hr [<- | []].
        apply existsb_sameFile_ref in Hr. congruence.
  - rewrite Hl, map_app in Hnd. simpl in Hnd.
    repeat split; auto.
    + apply not_true_is_false. intros Hex.
      apply existsb_sameFile_ref in Hex. rewrite map_app in Hex.
      apply NoDup_remove_2 in Hnd. rewrite Hy in Hnd. contradiction.
    + intros other Hne. rewrite !isInSelectedFiles_existsb.
      cbn [set_selectedFiles selectedFiles]. rewrite Hl, !existsb_app. simpl.
      replace (sameFile y other) with false
        by (symmetry; apply Nat.eqb_neq; congruence).
      reflexivity.
    + rewrite map_app. now apply NoDup_remove_1 in Hnd.
Qed.

(** The selection of the component as created has no repetition. *)
Lemma initialComponent_distinct : selectionDistinct initialComponent.
Proof. constructor. Qed.

(** A blocked toggle changes nothing. *)
Lemma toggleSelection_blocked c file :
  toggleBlocked c = true -> toggleSelection c file = c.
Proof. intros Hb. unfold toggleSelection. now rewrite Hb. Qed.

(** [toggleSelection] keeps the selection free of repetition. *)
Lemma toggleSelection_distinct c file :
  selectionDistinct c -> selectionDistinct (toggleSelection c file).
Proof.
  intros Hnd. destruct (toggleBlocked c) eqn:Hb.
  - now rewrite toggleSelection_blocked.
  - now apply toggleSelection_flip.
Qed.

(** Every component the methods can produce has a selection without
    repetition. *)
Lemma reachable_distinct c : reachable c -> selectionDistinct c.
Proof.
  induction 1 as [ | c file _ IH | c d _ IH | c b _ IH | c _ IH ].
  - apply initialComponent_distinct.
  - now apply toggleSelection_distinct.
  - exact IH.
  - exact IH.
  - constructor.
Qed.

(** *** The properties of the component *)

(** C8: when the media service delivers a directory, [changeDirectory]
    resolves and leaves as current folder a directory whose files and
    whose sub-directories are the delivered ones, rearranged so that each
    list is sorted by lowercased name. *)
Theorem changeDirectory_sorts_by_name
        Server getDirectory (w : World Server) mediaId lazy fetched :
  getDirectory (server w) mediaId lazy = Some fetched ->
  exists folder,
    changeDirectory Server getDirectory w mediaId lazy
    = (set_component Server w (set_currentFolder (component w) (Some folder)), None)
    /\ StronglySorted nameLe (files folder)
    /\ StronglySorted nameLe (subDirectories folder)
    /\ Permutation (files fetched) (files folder)
    /\ Permutation (subDirectories fetched) (subDirectories folder).
Proof.
  intros Hg. eexists. split.
  - rewrite (changeDirectory_fetched Server getDirectory w mediaId lazy fetched Hg).
    reflexivity.
  - cbn [files subDirectories]. repeat split.
    + apply sort_sorted.
    + apply sort_sorted.
    + apply sort_perm.
    + apply sort_perm.
Qed.

(** The sample listing [notes.txt; Beta.pdf; alpha.png] with the folders
    [Zoo; apes] comes out as [alpha.png; Beta.pdf; notes.txt] and
    [apes; Zoo]. *)
Lemma changeDirectory_sorts_by_name_witness :
  (exists folder,
      changeDirectory (list string) sampleGetDirectory sampleWorld "d0" true
      = (set_component (list string) sampleWorld
           (set_currentFolder (component sampleWorld) (Some folder)), None)
      /\ StronglySorted nameLe (files folder)
      /\ StronglySorted nameLe (subDirectories folder)
      /\ Permutation (files sampleFolder) (files folder)
      /\ Permutation (subDirectories sampleFolder) (subDirectories folder))
  /\ option_map files
       (currentFolder
          (component (fst (changeDirectory (list string) sampleGetDirectory
                             sampleWorld "d0" true))))
     = Some [alpha; Beta; notes].
Proof.
  split.
  - apply (changeDirectory_sorts_by_name (list string) sampleGetDirectory
             sampleWorld "d0" true sampleFolder).
    reflexivity.
  - reflexivity.
Defined.

(** C9: a confirmed [removeSelectedFile] calls [deleteFile] once for each
    selected file, in the order of the selection and whatever the earlier
    calls answered, and then shows one notification: the all-removed
    message when every call resolved, otherwise the message that lists
    the names of the files whose call was rejected, and only those. *)
Theorem removeSelectedFile_best_effort
        Server getDirectory deleteFile (w : World Server) deleteSelectedFiles :
  deleteSelectedFiles <> Some false ->
  let calls := attempts deleteFile (server w) (selectedFiles (component w)) in
  let w' := fst (removeSelectedFile Server getDirectory deleteFile w
                                    deleteSelectedFiles) in
  deleteCalls w' = deleteCalls w ++ calls
  /\ map fst calls = selectedFiles (component w)
  /\ snackBar w'
     = snackBar w
       ++ [if forallb snd calls
           then snackOpen "Removed all selected files"
           else snackOpenLong ("Could not remove: " ++ join ", " (failedNames calls))].
Proof.
  intros Hc calls w'.
  destruct (removeSelectedFile_confirmed Server getDirectory deleteFile w
              deleteSelectedFiles Hc) as (H1 & H2 & _).
  split; [ exact H1 | ]. split; [ apply attempts_files | exact H2 ].
Qed.

(** With [Beta.pdf] locked on the server, the three selected files are
    each tried once, and the notification names [Beta.pdf] alone. *)
Lemma removeSelectedFile_best_effort_witness :
  let w' := fst (removeSelectedFile (list string) sampleGetDirectory sampleDeleteFile
                                    sampleWorld (Some true)) in
  Some true <> Some false
  /\ deleteCalls w' = [(notes, true); (Beta, false); (alpha, true)]
  /\ snackBar w' = [snackOpenLong "Could not remove: Beta.pdf"].
Proof.
  cbv zeta.
  assert (Hc : Some true <> Some false) by discriminate.
  destruct (removeSelectedFile_best_effort (list string) sampleGetDirectory
              sampleDeleteFile sampleWorld (Some true) Hc) as (H1 & _ & H3).
  split; [ exact Hc | ]. split; [ exact H1 | exact H3 ].
Defined.

(** C10: on a selection without repetition, an unblocked [toggleSelection]
    flips the membership of its file, keeps the membership of every other
    file object and keeps the selection without repetition, so that two
    toggles of the same file give back the membership of every file; a
    blocked [toggleSelection] changes nothing. *)
Theorem toggleSelection_involution c file :
  selectionDistinct c ->
  (toggleBlocked c = false ->
   isInSelectedFiles (toggleSelection c file) file = negb (isInSelectedFiles c file)
   /\ (forall other, fileRef other <> fileRef file ->
         isInSelectedFiles (toggleSelection c file) other
         = isInSelectedFiles c other)
   /\ (forall any,
         isInSelectedFiles (toggleSelection (toggleSelection c file) file) any
         = isInSelectedFiles c any)
   /\ selectionDistinct (toggleSelection c file))
  /\ (toggleBlocked c = true -> toggleSelection c file = c).
Proof.
  intros Hnd. split; [ | apply toggleSelection_blocked ].
  intros Hb.
  destruct (toggleSelection_flip c file Hnd Hb) as (F1 & F2 & F3 & F4).
  destruct (toggleSelection_flip (toggleSelection c file) file F3 F4)
    as (G1 & G2 & _ & _).
  repeat split; auto.
  intros any. destruct (Nat.eq_dec (fileRef any) (fileRef file)) as [E | E].
  - rewrite (isInSelectedFiles_ref _ any file E), G1, F1.
    rewrite negb_involutive. symmetry. now apply isInSelectedFiles_ref.
  - rewrite G2, F2; auto.
Qed.

(** Toggling [Beta.pdf] in the selection [notes.txt; Beta.pdf] removes
    it, toggling it again selects it again; while the toggle is blocked
    nothing moves. *)
Lemma toggleSelection_involution_witness :
  let c := mkComponent false None [notes; Beta] false in
  let blocked := mkComponent false None [notes; Beta] true in
  selectionDistinct c
  /\ selectedFiles (toggleSelection c Beta) = [notes]
  /\ isInSelectedFiles (toggleSelection c Beta) Beta = negb (isInSelectedFiles c Beta)
  /\ isInSelectedFiles (toggleSelection (toggleSelection c Beta) Beta) Beta
     = isInSelectedFiles c Beta
  /\ toggleSelection blocked Beta = blocked.
Proof.
  cbv zeta.
  assert (Hnd : selectionDistinct (mkComponent false None [notes; Beta] false)).
  { unfold selectionDistinct. simpl. repeat constructor; simpl; intuition discriminate. }
  assert (Hnd' : selectionDistinct (mkComponent false None [notes; Beta] true))
    by exact Hnd.
  destruct (toggleSelection_involution
              (mkComponent false None [notes; Beta] false) Beta Hnd) as [Hu _].
  destruct (Hu eq_refl) as (H1 & _ & H3 & _).
  destruct (toggleSelection_involution
              (mkComponent false None [notes; Beta] true) Beta Hnd') as [_ Hbl].
  split; [ exact Hnd | ]. split; [ reflexivity | ].
  split; [ exact H1 | ]. split; [ apply H3 | ].
  apply Hbl. reflexivity.
Defined.

(* ===================================================================== *)
(** ** Further properties of the user controller                         *)
(* ===================================================================== *)

(** *** What a successful updateUser implies *)

Lemma strictEq_refl v : strictEq v v = true.
Proof. destruct v; simpl; auto. apply String.eqb_refl. Qed.

Section UpdateSuccess.
Variable isValidPassword : IUser -> JsOpt string -> bool.
Variable applyUpdate : IUser -> IUser -> IUser.
Variable forUser : IUser -> IUser -> IUser.

(** Everything that holds when [updateUser] returns: each guard was
    passed, and the returned pair is built from the stored document and
    the payload as it stood after the uid and password steps. *)
Lemma updateUser_ok_inv db id newUser currentUser r :
  updateUser isValidPassword applyUpdate forUser db id newUser currentUser = Ok r ->
  knownRole (role newUser) = true
  /\ knownRole (role currentUser) = true
  /\ String.eqb id (_id currentUser)
     && negb (String.eqb (role currentUser) (role newUser)) = false
  /\ ~ emailTakenBesides db (_id newUser) (email newUser)
  /\ exists oldUser p,
      findById id db = Some oldUser
      /\ knownRole (role oldUser) = true
      /\ (role currentUser <> "admin" ->
          ((getProperty editLevels (role oldUser)
            < getProperty editLevels (role currentUser))%Z
           \/ id = _id currentUser)
          /\ role newUser = role oldUser
          /\ strictEq (uid newUser) (uid oldUser) = true)
      /\ checkPassword isValidPassword oldUser newUser = Ok p
      /\ r = (forUser (applyUpdate oldUser (set_uid p (keptUid oldUser newUser)))
                      currentUser,
              replaceById id (applyUpdate oldUser (set_uid p (keptUid oldUser newUser)))
                          db).
Proof.
  unfold updateUser, knownRole.
  destruct (hasOwnProperty editLevels (role newUser)) eqn:K1;
    cbn [negb throwIf bind]; [ | discriminate ].
  destruct (hasOwnProperty editLevels (role currentUser)) eqn:K2;
    cbn [negb throwIf bind]; [ | discriminate ].
  destruct (String.eqb id (_id currentUser)
            && negb (String.eqb (role currentUser) (role newUser))) eqn:S;
    cbn [throwIf bind]; [ discriminate | ].
  destruct (0 <? List.length (findSameEmail db (email newUser) (_id newUser)))%nat eqn:M;
    cbn [throwIf bind]; [ discriminate | ].
  destruct (findById id db) as [oldUser|] eqn:F; cbn [bind]; [ | discriminate ].
  destruct (hasOwnProperty editLevels (role oldUser)) eqn:K3;
    cbn [negb throwIf bind]; [ | discriminate ].
  intros H.
  assert (Hmail : ~ emailTakenBesides db (_id newUser) (email newUser)).
  { rewrite <- findSameEmail_found. congruence. }
  assert (Hpriv :
            role currentUser <> "admin" ->
            ((getProperty editLevels (role oldUser)
              < getProperty editLevels (role currentUser))%Z
             \/ id = _id currentUser)
            /\ role newUser = role oldUser
            /\ strictEq (uid newUser) (uid oldUser) = true).
  { intros Hna. revert H. unfold checkPrivileges. cbn [userIsAdmin].
    apply String.eqb_neq in Hna. rewrite Hna. cbn [negb].
    destruct ((getProperty editLevels (role currentUser)
               <=? getProperty editLevels (role oldUser))%Z
              && negb (String.eqb id (_id currentUser))) eqn:E1;
      cbn [throwIf bind]; [ discriminate | ].
    destruct (String.eqb (role newUser) (role oldUser)) eqn:E2;
      cbn [negb throwIf bind]; [ | discriminate ].
    destruct (strictEq (uid newUser) (uid oldUser)) eqn:E3;
      cbn [negb throwIf bind]; [ | discriminate ].
    intros _. apply String.eqb_eq in E2. repeat split; auto.
    apply andb_false_iff in E1. destruct E1 as [E1 | E1].
    - left. apply Z.leb_gt in E1. exact E1.
    - right. apply negb_false_iff, String.eqb_eq in E1. exact E1. }
  assert (Htail :
            bind (checkPassword isValidPassword oldUser
                    (if truthy (uid oldUser) && strictEq (uid newUser) null
                     then set_uid newUser (uid oldUser) else newUser))
                 (fun newUser0 =>
                    match findOneAndUpdate applyUpdate id newUser0 db with
                    | (Some updatedUser, db') => Ok (forUser updatedUser currentUser, db')
                    | (None, _) => Throw TypeError
                    end) = Ok r).
  { revert H. unfold checkPrivileges. cbn [userIsAdmin].
    destruct (String.eqb (role currentUser) "admin"); cbn [negb bind]; [ auto | ].
    destruct ((getProperty editLevels (role currentUser)
               <=? getProperty editLevels (role oldUser))%Z
              && negb (String.eqb id (_id currentUser)));
      cbn [throwIf bind]; [ discriminate | ].
    destruct (String.eqb (role newUser) (role oldUser));
      cbn [negb throwIf bind]; [ | discriminate ].
    destruct (strictEq (uid newUser) (uid oldUser));
      cbn [negb throwIf bind]; [ auto | discriminate ]. }
  clear H.
  repeat split; auto.
  exists oldUser.
  destruct (checkPassword isValidPassword oldUser newUser) as [p | e] eqn:Hp.
  - exists p. repeat split; auto; try (now apply Hpriv).
    revert Htail. unfold keptUid, findOneAndUpdate.
    destruct (truthy (uid oldUser) && strictEq (uid newUser) null).
    + rewrite checkPassword_set_uid, Hp. cbn [bind]. rewrite F. congruence.
    + rewrite Hp. cbn [bind]. rewrite F.
      destruct (checkPassword_keeps isValidPassword _ _ _ Hp) as [_ Hu].
      replace (set_uid p (uid newUser)) with p; [ congruence | ].
      destruct p; cbn in *. subst. reflexivity.
  - exfalso. revert Htail.
    destruct (truthy (uid oldUser) && strictEq (uid newUser) null).
    + rewrite checkPassword_set_uid, Hp. discriminate.
    + rewrite Hp. discriminate.
Qed.
End UpdateSuccess.

Lemma editLevel_nonneg r : (0 <= getProperty editLevels r)%Z.
Proof.
  unfold editLevels. cbn [getProperty].
  repeat match goal with
         | |- context [if ?c then _ else _] => destruct c
         end; lia.
Qed.

Lemma editLevel_student : getProperty editLevels "student" = 0%Z.
Proof. reflexivity. Qed.

(** X1: a successful [updateUser] by an actor who is not an admin, on
    another user, means that the target is stored and that the actor's
    edit level is strictly above the stored role's edit level. *)
Theorem updateUser_success_needs_higher_edit_level
        isValidPassword applyUpdate forUser db id newUser currentUser r :
  updateUser isValidPassword applyUpdate forUser db id newUser currentUser = Ok r ->
  role currentUser <> "admin" ->
  id <> _id currentUser ->
  exists oldUser,
    findById id db = Some oldUser
    /\ (getProperty editLevels (role oldUser)
        < getProperty editLevels (role currentUser))%Z.
Proof.
  intros H Hna Hself.
  apply updateUser_ok_inv in H.
  destruct H as (_ & _ & _ & _ & oldUser & p & F & _ & Hpriv & _).
  exists oldUser. split; [ exact F | ].
  destruct (Hpriv Hna) as ([Hlt | Hid] & _); [ exact Hlt | contradiction ].
Qed.

(** Tom, a teacher, changes the email of Sam, a student. *)
Lemma updateUser_success_needs_higher_edit_level_witness :
  let payload := mkUser "s1" (val "300") "sam@new.local" undefined undefined "student" in
  updateUser noPasswordCheck overwrite plainView sampleDb "s1" payload tom
  = Ok (payload, [alice; tom; payload])
  /\ exists oldUser,
      findById "s1" sampleDb = Some oldUser
      /\ (getProperty editLevels (role oldUser)
          < getProperty editLevels (role tom))%Z.
Proof.
  cbv zeta. split; [ reflexivity | ].
  apply (updateUser_success_needs_higher_edit_level
           noPasswordCheck overwrite plainView sampleDb "s1"
           (mkUser "s1" (val "300") "sam@new.local" undefined undefined "student")
           tom
           (mkUser "s1" (val "300") "sam@new.local" undefined undefined "student",
            [alice; tom;
             mkUser "s1" (val "300") "sam@new.local" undefined undefined "student"])).
  - reflexivity.
  - discriminate.
  - discriminate.
Defined.

(** X2: an actor of role [student] never gets an update of another
    user's record through, whatever the payload and the collection. *)
Theorem updateUser_student_cannot_update_others
        isValidPassword applyUpdate forUser db id newUser currentUser :
  role currentUser = "student" ->
  id <> _id currentUser ->
  isOk (updateUser isValidPassword applyUpdate forUser db id newUser currentUser)
  = false.
Proof.
  intros Hs Hself.
  destruct (updateUser isValidPassword applyUpdate forUser db id newUser currentUser)
    as [r | e] eqn:E; [ exfalso | reflexivity ].
  apply updateUser_ok_inv in E.
  destruct E as (_ & _ & _ & _ & oldUser & p & _ & _ & Hpriv & _).
  assert (Hna : role currentUser <> "admin") by (rewrite Hs; discriminate).
  destruct (Hpriv Hna) as ([Hlt | Hid] & _); [ | contradiction ].
  rewrite Hs, editLevel_student in Hlt.
  pose proof (editLevel_nonneg (role oldUser)). lia.
Qed.

(** Sam, a student, is refused on Tom's record even with an unchanged
    payload. *)
Lemma updateUser_student_cannot_update_others_witness :
  isOk (updateUser noPasswordCheck overwrite plainView sampleDb "t1" tom sam) = false
  /\ updateUser noPasswordCheck overwrite plainView sampleDb "t1" tom sam
     = Throw (ForbiddenError
                "You don't have the authorization to change a user of this role.").
Proof.
  split; [ | reflexivity ].
  apply (updateUser_student_cannot_update_others
           noPasswordCheck overwrite plainView sampleDb "t1" tom sam).
  - reflexivity.
  - discriminate.
Defined.

(** X3: a successful [updateUser] by an actor who is not an admin writes
    a payload whose role is the stored role and whose uid is the stored
    uid: such an actor changes neither, on the own record or another. *)
Theorem updateUser_non_admin_keeps_role_and_uid
        isValidPassword applyUpdate forUser db id newUser currentUser view db' :
  updateUser isValidPassword applyUpdate forUser db id newUser currentUser
  = Ok (view, db') ->
  role currentUser <> "admin" ->
  exists oldUser applied,
    findById id db = Some oldUser
    /\ db' = replaceById id (applyUpdate oldUser applied) db
    /\ view = forUser (applyUpdate oldUser applied) currentUser
    /\ role applied = role oldUser
    /\ strictEq (uid applied) (uid oldUser) = true.
Proof.
  intros H Hna.
  apply updateUser_ok_inv in H.
  destruct H as (_ & _ & _ & _ & oldUser & p & F & _ & Hpriv & Hp & Hr).
  destruct (Hpriv Hna) as (_ & Hrole & Huid).
  exists oldUser, (set_uid p (keptUid oldUser newUser)).
  inversion Hr; subst. repeat split; auto.
  - cbn [set_uid role]. rewrite <- Hrole.
    apply (checkPassword_keeps isValidPassword _ _ _ Hp).
  - cbn [set_uid uid]. unfold keptUid.
    destruct (truthy (uid oldUser) && strictEq (uid newUser) null);
      [ apply strictEq_refl | exact Huid ].
Qed.

(** Tom's update of Sam's email leaves Sam's role and uid as stored. *)
Lemma updateUser_non_admin_keeps_role_and_uid_witness :
  let payload := mkUser "s1" (val "300") "sam@new.local" undefined undefined "student" in
  exists oldUser applied,
    findById "s1" sampleDb = Some oldUser
    /\ [alice; tom; payload] = replaceById "s1" (overwrite oldUser applied) sampleDb
    /\ payload = plainView (overwrite oldUser applied) tom
    /\ role applied = role oldUser
    /\ strictEq (uid applied) (uid oldUser) = true.
Proof.
  cbv zeta.
  apply (updateUser_non_admin_keeps_role_and_uid
           noPasswordCheck overwrite plainView sampleDb "s1"
           (mkUser "s1" (val "300") "sam@new.local" undefined undefined "student")
           tom).
  - reflexivity.
  - discriminate.
Defined.

(** X4: no successful [updateUser] writes a [null] uid over a stored uid
    that is set (a non-empty string): a payload with [uid: null] is
    applied with the stored uid. *)
Theorem updateUser_never_nulls_a_set_uid
        isValidPassword applyUpdate forUser db id newUser currentUser view db' :
  updateUser isValidPassword applyUpdate forUser db id newUser currentUser
  = Ok (view, db') ->
  exists oldUser applied,
    findById id db = Some oldUser
    /\ db' = replaceById id (applyUpdate oldUser applied) db
    /\ view = forUser (applyUpdate oldUser applied) currentUser
    /\ (truthy (uid oldUser) = true ->
        uid applied <> null
        /\ (uid newUser = null -> uid applied = uid oldUser)).
Proof.
  intros H.
  apply updateUser_ok_inv in H.
  destruct H as (_ & _ & _ & _ & oldUser & p & F & _ & _ & Hp & Hr).
  exists oldUser, (set_uid p (keptUid oldUser newUser)).
  inversion Hr; subst. repeat split; auto.
  - cbn [set_uid uid]. unfold keptUid. rewrite H.
    destruct (strictEq (uid newUser) null) eqn:E; cbn [andb].
    + intros Hn. rewrite Hn in H. discriminate.
    + intros Hn. rewrite Hn in E. discriminate.
  - intros Hn. cbn [set_uid uid]. unfold keptUid. rewrite H, Hn. reflexivity.
Qed.

(** Alice sends Sam's record with [uid: null]; the uid 300 stays. *)
Lemma updateUser_never_nulls_a_set_uid_witness :
  let payload := mkUser "s1" null "sam@test.local" undefined undefined "student" in
  updateUser noPasswordCheck overwrite plainView sampleDb "s1" payload alice
  = Ok (sam, sampleDb)
  /\ exists oldUser applied,
      findById "s1" sampleDb = Some oldUser
      /\ sampleDb = replaceById "s1" (overwrite oldUser applied) sampleDb
      /\ sam = plainView (overwrite oldUser applied) alice
      /\ (truthy (uid oldUser) = true ->
          uid applied <> null
          /\ (uid payload = null -> uid applied = uid oldUser)).
Proof.
  cbv zeta. split; [ reflexivity | ].
  apply (updateUser_never_nulls_a_set_uid
           noPasswordCheck overwrite plainView sampleDb "s1"
           (mkUser "s1" null "sam@test.local" undefined undefined "student")
           alice sam sampleDb).
  reflexivity.
Defined.

(** X5: a successful [updateUser] writes a password only after the
    stored user's previous password has been validated: either the
    payload has no password or an empty one, and then none is written, or
    it has a non-empty one, [isValidPassword] accepted the payload's
    [currentPassword], and that password is written. *)
Theorem updateUser_password_needs_validation
        isValidPassword applyUpdate forUser db id newUser currentUser view db' :
  updateUser isValidPassword applyUpdate forUser db id newUser currentUser
  = Ok (view, db') ->
  exists oldUser applied,
    findById id db = Some oldUser
    /\ db' = replaceById id (applyUpdate oldUser applied) db
    /\ ((password applied = undefined
         /\ (password newUser = undefined \/ password newUser = val ""))
        \/ (exists p, password newUser = val p /\ p <> ""
                      /\ password applied = val p
                      /\ isValidPassword oldUser (currentPassword newUser) = true)).
Proof.
  intros H.
  apply updateUser_ok_inv in H.
  destruct H as (_ & _ & _ & _ & oldUser & p & F & _ & _ & Hp & Hr).
  exists oldUser, (set_uid p (keptUid oldUser newUser)).
  inversion Hr; subst. repeat split; auto.
  cbn [set_uid password]. revert Hp. unfold checkPassword.
  destruct (password newUser) as [ | | pw] eqn:E; try discriminate.
  - intros Hp. inversion Hp; subst. left. cbn. auto.
  - destruct (String.length pw =? 0)%nat eqn:El.
    + intros Hp. inversion Hp; subst. left. cbn. split; auto. right.
      destruct pw; [ reflexivity | discriminate ].
    + destruct (isValidPassword oldUser (currentPassword newUser)) eqn:Ev;
        cbn [negb]; [ | discriminate ].
      intros Hp. inversion Hp; subst. right. exists pw.
      repeat split; auto.
      intros ->. discriminate.
Qed.

(** With a checker that accepts the previous password [old] only, Sam
    sets a new password when he sends [old] and is refused otherwise. *)
Lemma updateUser_password_needs_validation_witness :
  let accepts := fun (_ : IUser) (c : JsOpt string) => strictEq c (val "old") in
  let good := mkUser "s1" (val "300") "sam@test.local" (val "new") (val "old") "student" in
  let bad := mkUser "s1" (val "300") "sam@test.local" (val "new") (val "guess") "student" in
  (exists oldUser applied,
      findById "s1" sampleDb = Some oldUser
      /\ [alice; tom; good] = replaceById "s1" (overwrite oldUser applied) sampleDb
      /\ ((password applied = undefined
           /\ (password good = undefined \/ password good = val ""))
          \/ (exists p, password good = val p /\ p <> ""
                        /\ password applied = val p
                        /\ accepts oldUser (currentPassword good) = true)))
  /\ updateUser accepts overwrite plainView sampleDb "s1" bad sam
     = Throw (BadRequestError "Invalid current password!").
Proof.
  cbv zeta. split; [ | reflexivity ].
  apply (updateUser_password_needs_validation
           (fun (_ : IUser) (c : JsOpt string) => strictEq c (val "old"))
           overwrite plainView sampleDb "s1"
           (mkUser "s1" (val "300") "sam@test.local" (val "new") (val "old") "student")
           sam
           (mkUser "s1" (val "300") "sam@test.local" (val "new") (val "old") "student")).
  reflexivity.
Defined.

(** X6: [updateUser] never succeeds on an id that is not stored, nor on
    a stored user whose role has no edit level (such as [tutor]), not
    even for an admin. *)
Theorem updateUser_needs_stored_target_with_edit_level
        isValidPassword applyUpdate forUser db id newUser currentUser :
  findById id db = None
  \/ (exists oldUser, findById id db = Some oldUser /\ knownRole (role oldUser) = false) ->
  isOk (updateUser isValidPassword applyUpdate forUser db id newUser currentUser)
  = false.
Proof.
  intros Hbad.
  destruct (updateUser isValidPassword applyUpdate forUser db id newUser currentUser)
    as [r | e] eqn:E; [ exfalso | reflexivity ].
  apply updateUser_ok_inv in E.
  destruct E as (_ & _ & _ & _ & oldUser & p & F & K & _).
  destruct Hbad as [Hn | (o & Ho & Hk)]; congruence.
Qed.

(** Alice cannot update a stored tutor, nor a user who is not stored. *)
Lemma updateUser_needs_stored_target_with_edit_level_witness :
  let tia := sampleUser "u1" "tutor" "tia@test.local" (val "400") in
  let payload := sampleUser "u1" "student" "tia@test.local" (val "400") in
  updateUser noPasswordCheck overwrite plainView (tia :: sampleDb) "u1" payload alice
  = Throw (InternalServerError "Invalid old user role.")
  /\ isOk (updateUser noPasswordCheck overwrite plainView (tia :: sampleDb) "u1"
             payload alice) = false
  /\ isOk (updateUser noPasswordCheck overwrite plainView sampleDb "u1" payload alice)
     = false.
Proof.
  cbv zeta. split; [ reflexivity | split ].
  - apply updateUser_needs_stored_target_with_edit_level.
    right. eexists. split; reflexivity.
  - apply updateUser_needs_stored_target_with_edit_level.
    left. reflexivity.
Defined.

(** The first document of an id, and what [replaceById] does there. *)
Lemma findById_split id db u :
  findById id db = Some u ->
  exists l1 l2,
    db = l1 ++ u :: l2 /\ _id u = id /\ (forall v, In v l1 -> _id v <> id).
Proof.
  unfold findById. induction db as [|x db IH]; simpl; [ discriminate | ].
  destruct (String.eqb (_id x) id) eqn:E.
  - intros H. inversion H; subst. exists [], db. simpl.
    apply String.eqb_eq in E. split; [ reflexivity | ]. split; [ exact E | ].
    intros v [].
  - intros H. destruct (IH H) as (l1 & l2 & -> & Hid & Hl).
    exists (x :: l1), l2. simpl. split; [ reflexivity | ]. split; [ exact Hid | ].
    intros v [<- | Hv]; [ now apply String.eqb_neq | now apply Hl ].
Qed.

Lemma replaceById_split id doc l1 u l2 :
  _id u = id -> (forall v, In v l1 -> _id v <> id) ->
  replaceById id doc (l1 ++ u :: l2) = l1 ++ doc :: l2.
Proof.
  intros Hu. induction l1 as [|x l1 IH]; simpl; intros Hl.
  - apply String.eqb_eq in Hu. now rewrite Hu.
  - assert (E : String.eqb (_id x) id = false)
      by (apply String.eqb_neq, Hl; auto).
    rewrite E, IH; auto.
Qed.

(** X7: a successful [updateUser] replaces the first document of the
    target id by the updated document and leaves every other document of
    the collection as it was and where it was. *)
Theorem updateUser_touches_only_the_target
        isValidPassword applyUpdate forUser db id newUser currentUser view db' :
  updateUser isValidPassword applyUpdate forUser db id newUser currentUser
  = Ok (view, db') ->
  exists before oldUser after updated,
    db = before ++ oldUser :: after
    /\ db' = before ++ updated :: after
    /\ _id oldUser = id
    /\ (forall v, In v before -> _id v <> id)
    /\ view = forUser updated currentUser.
Proof.
  intros H.
  apply updateUser_ok_inv in H.
  destruct H as (_ & _ & _ & _ & oldUser & p & F & _ & _ & _ & Hr).
  destruct (findById_split id db oldUser F) as (l1 & l2 & Hdb & Hid & Hl).
  exists l1, oldUser, l2, (applyUpdate oldUser (set_uid p (keptUid oldUser newUser))).
  inversion Hr; subst view db'. repeat split; auto.
  rewrite Hdb at 1. now apply replaceById_split.
Qed.

(** Tom's update of Sam's email changes the third document only. *)
Lemma updateUser_touches_only_the_target_witness :
  let payload := mkUser "s1" (val "300") "sam@new.local" undefined undefined "student" in
  exists before oldUser after updated,
    sampleDb = before ++ oldUser :: after
    /\ [alice; tom; payload] = before ++ updated :: after
    /\ _id oldUser = "s1"
    /\ (forall v, In v before -> _id v <> "s1")
    /\ payload = plainView updated tom.
Proof.
  cbv zeta.
  apply (updateUser_touches_only_the_target
           noPasswordCheck overwrite plainView sampleDb "s1"
           (mkUser "s1" (val "300") "sam@new.local" undefined undefined "student")
           tom).
  reflexivity.
Defined.

(** X8: when applying a payload keeps the stored id, [getUser] on the
    collection left by a successful [updateUser] finds the updated
    document under the target id: the viewer is shown that document. *)
Theorem getUser_after_updateUser
        isValidPassword applyUpdate forUser db id newUser currentUser view db' viewer :
  (forall o p, _id (applyUpdate o p) = _id o) ->
  updateUser isValidPassword applyUpdate forUser db id newUser currentUser
  = Ok (view, db') ->
  exists updated,
    view = forUser updated currentUser
    /\ getUser forUser db' id viewer = Ok (forUser updated viewer).
Proof.
  intros Hkeep H.
  apply updateUser_ok_inv in H.
  destruct H as (_ & _ & _ & _ & oldUser & p & F & _ & _ & _ & Hr).
  destruct (findById_split id db oldUser F) as (l1 & l2 & Hdb & Hid & Hl).
  set (updated := applyUpdate oldUser (set_uid p (keptUid oldUser newUser))) in *.
  exists updated. inversion Hr; subst view db'. split; [ reflexivity | ].
  unfold getUser, findById.
  rewrite Hdb, (replaceById_split id updated l1 oldUser l2 Hid Hl).
  assert (Hu : String.eqb (_id updated) id = true).
  { apply String.eqb_eq. unfold updated. now rewrite Hkeep. }
  clear Hdb F. induction l1 as [|x l1 IH]; simpl.
  - now rewrite Hu.
  - assert (E : String.eqb (_id x) id = false)
      by (apply String.eqb_neq, Hl; simpl; auto).
    rewrite E. apply IH. intros v Hv. apply Hl. simpl. auto.
Qed.

(** After Alice makes Sam a teacher, Tom is shown Sam as a teacher. *)
Lemma getUser_after_updateUser_witness :
  let payload := mkUser "s1" (val "300") "sam@test.local" undefined undefined "teacher" in
  exists updated,
    payload = plainView updated alice
    /\ getUser plainView [alice; tom; payload] "s1" tom = Ok (plainView updated tom).
Proof.
  cbv zeta.
  apply (getUser_after_updateUser
           noPasswordCheck storeUnderId plainView sampleDb "s1"
           (mkUser "s1" (val "300") "sam@test.local" undefined undefined "teacher")
           alice).
  - reflexivity.
  - reflexivity.
Defined.

(** *** deleteUser and getUser *)

Lemma findByIdAndRemove_absent id db :
  findById id db = None -> findByIdAndRemove id db = db.
Proof.
  unfold findById. induction db as [|x db IH]; simpl; [ reflexivity | ].
  destruct (String.eqb (_id x) id); [ discriminate | ].
  intros H. now rewrite IH.
Qed.

Lemma findById_In id db u : findById id db = Some u -> In u db /\ _id u = id.
Proof.
  unfold findById. intros H. apply find_some in H.
  destruct H as [Hin He]. apply String.eqb_eq in He. auto.
Qed.

Lemma findById_None id db :
  findById id db = None <-> (forall u, In u db -> _id u <> id).
Proof.
  unfold findById. split.
  - intros H u Hin. apply String.eqb_neq. exact (find_none _ _ H u Hin).
  - intros H. destruct (find (fun u => String.eqb (_id u) id) db) eqn:E; auto.
    apply find_some in E. destruct E as [Hin He].
    apply String.eqb_eq in He. exfalso. exact (H _ Hin He).
Qed.

(** X9: [deleteUser] on an id that no document carries returns
    [{result: true}] and leaves the collection as it is; it never answers
    with an error there. *)
Theorem deleteUser_unknown_id db id :
  findById id db = None ->
  deleteUser db id = Ok (mkDeleteResult true, db).
Proof.
  intros Hn.
  destruct (deleteUser_cases db id) as [(u & Hl & Hid & _) | [_ Hr]].
  - exfalso.
    assert (Hin : In u (findAdmins db)) by (rewrite Hl; simpl; auto).
    apply findAdmins_In in Hin. destruct Hin as [Hin _].
    rewrite findById_None in Hn. exact (Hn u Hin Hid).
  - rewrite Hr, findByIdAndRemove_absent; auto.
Qed.

Lemma deleteUser_unknown_id_witness :
  findById "zz" sampleDb = None
  /\ deleteUser sampleDb "zz" = Ok (mkDeleteResult true, sampleDb).
Proof.
  split; [ reflexivity | ].
  apply (deleteUser_unknown_id sampleDb "zz"). reflexivity.
Defined.

Lemma findByIdAndRemove_keeps id db v :
  In v db -> _id v <> id -> In v (findByIdAndRemove id db).
Proof.
  induction db as [|x db IH]; simpl; [ tauto | ].
  intros [<- | Hin] Hne.
  - apply String.eqb_neq in Hne. rewrite Hne. simpl. auto.
  - destruct (String.eqb (_id x) id); [ exact Hin | simpl; auto ].
Qed.

(** Removal by id takes away at most one admin. *)
Lemma findAdmins_after_remove id db :
  List.length (findAdmins db) <= S (List.length (findAdmins (findByIdAndRemove id db))).
Proof.
  unfold findAdmins. induction db as [|x db IH]; simpl; [ lia | ].
  destruct (String.eqb (_id x) id).
  - destruct (String.eqb (role x) "admin"); simpl; lia.
  - simpl. destruct (String.eqb (role x) "admin"); simpl; lia.
Qed.

(** X10: a collection that holds an admin still holds one after every
    successful [deleteUser], whatever the id deleted (the ids need not
    even be distinct). *)
Theorem deleteUser_keeps_an_admin db id r db' :
  (exists a, In a db /\ role a = "admin") ->
  deleteUser db id = Ok (r, db') ->
  exists a, In a db' /\ role a = "admin".
Proof.
  intros (a & Ha & Hr) H.
  destruct (deleteUser_cases db id) as [(u & _ & _ & Hthrow) | [Hno Hok]];
    [ congruence | ].
  rewrite Hok in H. inversion H; subst r db'. clear H Hok.
  assert (Hin : In a (findAdmins db)) by (apply findAdmins_In; auto).
  pose proof (findAdmins_after_remove id db) as Hlen.
  destruct (findAdmins db) as [|x [|y l]] eqn:E.
  - destruct Hin.
  - destruct Hin as [-> | []].
    exists a. split; [ | exact Hr ].
    apply findByIdAndRemove_keeps; auto.
  - destruct (findAdmins (findByIdAndRemove id db)) as [|z l'] eqn:E';
      [ simpl in Hlen; lia | ].
    exists z. apply findAdmins_In. rewrite E'. simpl. auto.
Qed.

(** With Ann as a second admin, Alice's deletion leaves Ann. *)
Lemma deleteUser_keeps_an_admin_witness :
  let ann := sampleUser "a2" "admin" "ann@test.local" (val "101") in
  deleteUser (ann :: sampleDb) "a1" = Ok (mkDeleteResult true, [ann; tom; sam])
  /\ exists a, In a [ann; tom; sam] /\ role a = "admin".
Proof.
  cbv zeta. split; [ reflexivity | ].
  apply (deleteUser_keeps_an_admin
           (sampleUser "a2" "admin" "ann@test.local" (val "101") :: sampleDb)
           "a1" (mkDeleteResult true)).
  - exists alice. simpl. auto.
  - reflexivity.
Defined.

(** X11: in a collection with distinct ids, [getUser] on the collection
    left by a successful [deleteUser] answers the deleted id with
    [NotFoundError], and still finds every other stored user. *)
Theorem getUser_after_deleteUser forUser db id r db' viewer :
  NoDup (map _id db) ->
  deleteUser db id = Ok (r, db') ->
  getUser forUser db' id viewer = Throw (NotFoundError "User was not found.")
  /\ (forall u, In u db -> _id u <> id ->
        getUser forUser db' (_id u) viewer = Ok (forUser u viewer)).
Proof.
  intros Hnd H.
  destruct (deleteUser_cases db id) as [(u & _ & _ & Hthrow) | [_ Hok]];
    [ congruence | ].
  rewrite Hok in H. inversion H; subst r db'. clear H Hok.
  assert (Hnd' : NoDup (map _id (findByIdAndRemove id db))).
  { clear - Hnd. induction db as [|x db IH]; simpl in *; [ constructor | ].
    inversion Hnd as [|? ? Hnin Hnd']; subst.
    destruct (String.eqb (_id x) id); [ exact Hnd' | ].
    simpl. constructor; [ | now apply IH ].
    intros Hin. apply Hnin. apply in_map_iff in Hin.
    destruct Hin as (v & Hv & Hin). apply in_map_iff. exists v.
    split; [ exact Hv | ].
    apply (findByIdAndRemove_In db id v Hnd') in Hin. tauto. }
  split.
  - unfold getUser.
    destruct (findById id (findByIdAndRemove id db)) as [v|] eqn:F; [ | reflexivity ].
    apply findById_In in F. destruct F as [Hin Hv].
    apply (findByIdAndRemove_In db id v Hnd) in Hin. tauto.
  - intros u Hu Hne. unfold getUser.
    assert (Hin : In u (findByIdAndRemove id db))
      by (now apply findByIdAndRemove_keeps).
    destruct (findById (_id u) (findByIdAndRemove id db)) as [v|] eqn:F.
    + apply findById_In in F. destruct F as [Hv Hvid].
      replace v with u; [ reflexivity | ].
      clear - Hnd' Hin Hv Hvid.
      induction (findByIdAndRemove id db) as [|x l IH]; [ destruct Hin | ].
      simpl in Hnd'. inversion Hnd' as [|? ? Hnin Hnd'']; subst.
      destruct Hin as [<- | Hin], Hv as [<- | Hv]; auto.
      * exfalso. apply Hnin. rewrite <- Hvid. now apply in_map.
      * exfalso. apply Hnin. rewrite Hvid. now apply in_map.
    + rewrite findById_None in F. exfalso. exact (F u Hin eq_refl).
Qed.

(** After Tom's deletion his id is not found and Sam's still is. *)
Lemma getUser_after_deleteUser_witness :
  getUser plainView [alice; sam] "t1" alice
  = Throw (NotFoundError "User was not found.")
  /\ (forall u, In u sampleDb -> _id u <> "t1" ->
        getUser plainView [alice; sam] (_id u) alice = Ok (plainView u alice)).
Proof.
  apply (getUser_after_deleteUser plainView sampleDb "t1" (mkDeleteResult true)).
  - simpl. repeat constructor; simpl; intuition discriminate.
  - reflexivity.
Defined.

(** *** searchUser and escapeRegex *)

(** X12: [searchUser] answers with the bad request "Method not allowed
    for this role." exactly when the role asked for is neither [student]
    nor [teacher]; the role is checked before the query is read, so this
    holds for every query, present or not. *)
Theorem searchUser_role_gate
        findWhere forUser queryEmptyCode db currentUser role_ query limit :
  searchUser findWhere forUser queryEmptyCode db currentUser role_ query limit
  = Throw (BadRequestError "Method not allowed for this role.")
  <-> role_ <> "student" /\ role_ <> "teacher".
Proof.
  unfold searchUser.
  destruct (String.eqb_spec role_ "student") as [E1 | E1];
    destruct (String.eqb_spec role_ "teacher") as [E2 | E2];
    cbn [negb andb throwIf bind].
  1-3: split; [ | tauto ]; destruct query; cbn [bind isNullOrUndefined throwIf];
    discriminate.
  split; auto.
Qed.

(** Every character that [escapeRegex] escapes is one that a backslash
    turns into itself. *)
Lemma escaped_is_identity_escape c :
  isRegexSpecial c = true -> identityEscape c = true.
Proof.
  destruct c as [[] [] [] [] [] [] [] []]; vm_compute; intros H;
    first [ reflexivity | discriminate H ].
Qed.

(** Every character that [escapeRegex] leaves alone is neither the
    backslash nor any other syntax character. *)
Lemma unescaped_is_plain c :
  isRegexSpecial c = false ->
  Ascii.eqb c (ascii_of_nat 92) = false /\ syntaxCharacter c = false.
Proof.
  destruct c as [[] [] [] [] [] [] [] []]; vm_compute; intros H;
    first [ split; reflexivity | discriminate H ].
Qed.

(** X13: read as a regular expression, [escapeRegex text] has no syntax
    character ([^ $ \ . * + ? ( ) [ ] { } |]) outside an escape and no
    escape other than an identity escape, and the literal text it matches
    is [text] itself. *)
Theorem escapeRegex_matches_literally text :
  literalOf (escapeRegex text) = Some text.
Proof.
  induction text as [|c r IH]; [ reflexivity | ].
  cbn [escapeRegex].
  destruct (isRegexSpecial c) eqn:E.
  - cbn [literalOf]. rewrite Ascii.eqb_refl.
    rewrite (escaped_is_identity_escape c E), IH. reflexivity.
  - destruct (unescaped_is_plain c E) as [B S].
    cbn [literalOf]. rewrite B, S, IH. reflexivity.
Qed.

(** A pattern with a bare dot or star is not read as a literal, the
    escaped text is. *)
Example literalOf_run :
  literalOf "a.b" = None /\ literalOf "a*" = None
  /\ literalOf (escapeRegex "a.b (c)*") = Some "a.b (c)*".
Proof. repeat split. Qed.

(** *** The name of an uploaded picture *)

Lemma lastIndexOfFrom_lacks c s :
  lacksChar c s -> forall i found, lastIndexOfFrom c s i found = found.
Proof.
  unfold lacksChar. induction s as [|x s IH]; simpl; intros Hl i found;
    [ reflexivity | ].
  destruct (Ascii.eqb x c) eqn:E.
  - apply Ascii.eqb_eq in E. exfalso. apply Hl. auto.
  - apply IH. intros Hin. apply Hl. auto.
Qed.

Lemma lastIndexOfFrom_last c stem rest :
  lacksChar c rest ->
  forall i found,
    lastIndexOfFrom c (stem ++ String c rest)%string i found
    = (i + Z.of_nat (String.length stem))%Z.
Proof.
  intros Hl. induction stem as [|x stem IH]; intros i found.
  - cbn [append lastIndexOfFrom String.length]. rewrite Ascii.eqb_refl.
    rewrite lastIndexOfFrom_lacks by exact Hl. simpl. lia.
  - cbn [append lastIndexOfFrom String.length]. rewrite IH. lia.
Qed.

Lemma dropChars_stem stem c rest :
  dropChars (S (String.length stem)) (stem ++ String c rest)%string = rest.
Proof. induction stem as [|x stem IH]; simpl; auto. Qed.

(** X14: the extension given to an uploaded picture is empty when the
    original name has no dot; otherwise it is a dot followed by the
    lowercased text after the last dot of the original name. *)
Theorem uploadExtension_spec originalname :
  (lacksChar "."%char originalname -> uploadExtension originalname = "")
  /\ (forall stem rest,
        originalname = (stem ++ "." ++ rest)%string ->
        lacksChar "."%char rest ->
        uploadExtension originalname = ("." ++ toLowerCase rest)%string).
Proof.
  unfold uploadExtension, lastIndexOf. split.
  - intros Hl. rewrite lastIndexOfFrom_lacks by exact Hl. reflexivity.
  - intros stem rest -> Hl.
    change (stem ++ "." ++ rest)%string with (stem ++ String "."%char rest)%string.
    rewrite lastIndexOfFrom_last by exact Hl.
    replace (0 + Z.of_nat (String.length stem) =? -1)%Z with false
      by (symmetry; apply Z.eqb_neq; lia).
    cbn [negb]. unfold substr.
    replace (Z.to_nat (0 + Z.of_nat (String.length stem) + 1))
      with (S (String.length stem)) by lia.
    now rewrite dropChars_stem.
Qed.

Example uploadExtension_run :
  uploadExtension "IMG_2014.Foo.JPG" = ".jpg"
  /\ uploadExtension "README" = ""
  /\ uploadExtension "archive." = ".".
Proof. repeat split. Qed.

(** The decimal text read back as an integer. *)
Lemma suffix_checked :
  forallb (fun k =>
             let suffix := numberToString (Z.of_nat k + 1000) in
             (String.length suffix =? 4)%nat
             && match DecimalString.NilZero.int_of_string suffix with
                | Some d => (Z.of_int d =? Z.of_nat k + 1000)%Z
                | None => false
                end)
          (seq 0 (Z.to_nat 8999)) = true.
Proof. vm_compute. reflexivity. Qed.

(** X15: for a draw between 0 and 8998, the stored name of an uploaded
    picture is the id, a dash, a suffix of exactly four characters that
    is the decimal writing of the draw plus 1000, and the extension. *)
Theorem uploadFilename_shape id draw originalname :
  (0 <= draw <= 8998)%Z ->
  exists suffix,
    uploadFilename id draw originalname
    = (id ++ "-" ++ suffix ++ uploadExtension originalname)%string
    /\ String.length suffix = 4
    /\ option_map Z.of_int (DecimalString.NilZero.int_of_string suffix)
       = Some (draw + 1000)%Z.
Proof.
  intros Hd. exists (numberToString (draw + 1000)).
  pose proof suffix_checked as H.
  rewrite forallb_forall in H.
  specialize (H (Z.to_nat draw)).
  rewrite Z2Nat.id in H by lia.
  assert (Hin : In (Z.to_nat draw) (seq 0 (Z.to_nat 8999))) by (apply in_seq; lia).
  specialize (H Hin). cbv zeta in H.
  apply andb_true_iff in H. destruct H as [H1 H2].
  split; [ reflexivity | split ].
  - now apply Nat.eqb_eq.
  - destruct (DecimalString.NilZero.int_of_string (numberToString (draw + 1000)));
      [ | discriminate ].
    apply Z.eqb_eq in H2. simpl. now rewrite H2.
Qed.

Lemma uploadFilename_shape_witness :
  uploadFilename "5a037e6a" 8558 "IMG_2014.JPG" = "5a037e6a-9558.jpg"
  /\ exists suffix,
      uploadFilename "5a037e6a" 8558 "IMG_2014.JPG"
      = ("5a037e6a" ++ "-" ++ suffix ++ uploadExtension "IMG_2014.JPG")%string
      /\ String.length suffix = 4
      /\ option_map Z.of_int (DecimalString.NilZero.int_of_string suffix)
         = Some (8558 + 1000)%Z.
Proof.
  split; [ reflexivity | ].
  apply (uploadFilename_shape "5a037e6a" 8558 "IMG_2014.JPG"). lia.
Defined.

(* ===================================================================== *)
(** ** Further properties of the course media component                  *)
(* ===================================================================== *)

(** *** sortFnc as a comparator *)

Lemma string_ltb_irrefl s : String.ltb s s = false.
Proof.
  unfold String.ltb.
  destruct (String.compare s s) eqn:E; try reflexivity.
  pose proof (String.compare_antisym s s) as H. rewrite E in H. discriminate.
Qed.

(** X16: [sortFnc] is a consistent comparator: it only returns -1, 0 or
    1, swapping its arguments negates the result, it returns 0 exactly
    for names that are equal once lowercased, and "not after" composes. *)
Theorem sortFnc_consistent {A} `{Named A} (a b c : A) :
  (sortFnc a b = -1 \/ sortFnc a b = 0 \/ sortFnc a b = 1)%Z
  /\ sortFnc b a = (- sortFnc a b)%Z
  /\ (sortFnc a b = 0%Z <-> toLowerCase (name a) = toLowerCase (name b))
  /\ ((sortFnc a b <= 0)%Z -> (sortFnc b c <= 0)%Z -> (sortFnc a c <= 0)%Z).
Proof.
  split; [ | split; [ | split ] ].
  - unfold sortFnc, strLt, strGt.
    destruct (String.ltb _ _); auto. destruct (String.ltb _ _); auto.
  - unfold sortFnc, strLt, strGt, String.ltb.
    rewrite (String.compare_antisym (toLowerCase (name b))).
    destruct (String.compare (toLowerCase (name a)) (toLowerCase (name b)));
      reflexivity.
  - unfold sortFnc, strLt, strGt, String.ltb.
    rewrite (String.compare_antisym (toLowerCase (name b))).
    destruct (String.compare (toLowerCase (name a)) (toLowerCase (name b))) eqn:E;
      cbn [CompOpp].
    + split; [ intros _; now apply String.compare_eq_iff | reflexivity ].
    + split; [ discriminate | ].
      intros Heq. rewrite Heq in E.
      pose proof (string_ltb_irrefl (toLowerCase (name b))) as Hi.
      unfold String.ltb in Hi. rewrite E in Hi. discriminate.
    + split; [ discriminate | ].
      intros Heq. rewrite Heq in E.
      pose proof (String.compare_antisym (toLowerCase (name b)) (toLowerCase (name b)))
        as Hi.
      rewrite E in Hi. discriminate.
  - rewrite <- !Z.leb_le, !sortFnc_leb. apply string_leb_trans.
Qed.

Lemma sortFnc_consistent_witness :
  sortFnc Beta alpha = 1%Z /\ sortFnc alpha Beta = (-1)%Z
  /\ ((sortFnc alpha Beta <= 0)%Z -> (sortFnc Beta notes <= 0)%Z ->
      (sortFnc alpha notes <= 0)%Z).
Proof.
  split; [ reflexivity | split; [ reflexivity | ] ].
  apply (sortFnc_consistent alpha Beta notes).
Defined.

(** *** changeDirectory *)

Lemma sort_sorted_id {A} `{Named A} (l : list A) :
  StronglySorted nameLe l -> sort sortFnc l = l.
Proof.
  induction l as [|x l IH]; [ reflexivity | ].
  intros Hs. inversion Hs as [|? ? Hl Hx]; subst.
  cbn [sort]. rewrite (IH Hl).
  destruct l as [|y l]; [ reflexivity | ].
  cbn [sortInsert]. rewrite sortFnc_leb.
  inversion Hx as [|? ? Hxy _]; subst. unfold nameLe in Hxy. now rewrite Hxy.
Qed.

(** X17: a listing that the service delivers already sorted by
    lowercased name becomes the current folder as it is: no file and no
    sub-directory changes its place. *)
Theorem changeDirectory_keeps_sorted_listing
        Server getDirectory (w : World Server) mediaId lazy fetched :
  getDirectory (server w) mediaId lazy = Some fetched ->
  StronglySorted nameLe (files fetched) ->
  StronglySorted nameLe (subDirectories fetched) ->
  currentFolder (component (fst (changeDirectory Server getDirectory w mediaId lazy)))
  = Some fetched.
Proof.
  intros Hg Hf Hd.
  rewrite (changeDirectory_fetched Server getDirectory w mediaId lazy fetched Hg).
  cbn [fst component set_currentFolder currentFolder].
  rewrite (sort_sorted_id _ Hf), (sort_sorted_id _ Hd).
  destruct fetched. reflexivity.
Qed.

Lemma changeDirectory_keeps_sorted_listing_witness :
  let sortedFolder :=
    mkDirectory "d0" "root"
                [mkDirectory "d1" "apes" [] []; mkDirectory "d2" "Zoo" [] []]
                [alpha; Beta; notes] in
  let service := fun (_ : list string) (_ : string) (_ : bool) => Some sortedFolder in
  currentFolder (component (fst (changeDirectory (list string) service sampleWorld
                                                 "d0" true)))
  = Some sortedFolder.
Proof.
  cbv zeta.
  apply (changeDirectory_keeps_sorted_listing
           (list string)
           (fun (_ : list string) (_ : string) (_ : bool) =>
              Some (mkDirectory "d0" "root"
                      [mkDirectory "d1" "apes" [] []; mkDirectory "d2" "Zoo" [] []]
                      [alpha; Beta; notes]))
           sampleWorld "d0" true).
  - reflexivity.
  - cbn [files]. repeat constructor.
  - cbn [subDirectories]. repeat constructor.
Defined.

(** X18: neither [changeDirectory] nor [reloadDirectory], resolved or
    rejected, touches the selection: every file object selected before is
    selected after, the toggle block and the notifications stay as they
    are, and nothing is asked of [deleteFile]. *)
Theorem navigation_keeps_selection
        Server getDirectory (w : World Server) mediaId lazy :
  let w1 := fst (changeDirectory Server getDirectory w mediaId lazy) in
  let w2 := fst (reloadDirectory Server getDirectory w) in
  (selectedFiles (component w1) = selectedFiles (component w)
   /\ toggleBlocked (component w1) = toggleBlocked (component w)
   /\ snackBar w1 = snackBar w /\ deleteCalls w1 = deleteCalls w
   /\ forall file, isInSelectedFiles (component w1) file
                   = isInSelectedFiles (component w) file)
  /\ (selectedFiles (component w2) = selectedFiles (component w)
      /\ toggleBlocked (component w2) = toggleBlocked (component w)
      /\ snackBar w2 = snackBar w /\ deleteCalls w2 = deleteCalls w
      /\ forall file, isInSelectedFiles (component w2) file
                      = isInSelectedFiles (component w) file).
Proof.
  cbv zeta.
  destruct (changeDirectory_frame Server getDirectory w mediaId lazy)
    as (_ & A2 & A3 & A4 & A5).
  destruct (reloadDirectory_frame Server getDirectory w)
    as (_ & B2 & B3 & B4 & B5).
  cbv zeta in *.
  repeat split; auto; intros file; unfold isInSelectedFiles; congruence.
Qed.

(** *** removeSelectedFile *)

(** X19: a [removeSelectedFile] whose dialog resolves to [false] asks
    nothing of [deleteFile], shows no notification and keeps the
    selection, but returns with [toggleBlocked] still set: from then on
    [toggleSelection] changes nothing. *)
Theorem removeSelectedFile_cancelled_leaves_toggle_blocked
        Server getDirectory deleteFile (w : World Server) :
  let w' := fst (removeSelectedFile Server getDirectory deleteFile w (Some false)) in
  snd (removeSelectedFile Server getDirectory deleteFile w (Some false)) = None
  /\ deleteCalls w' = deleteCalls w
  /\ snackBar w' = snackBar w
  /\ selectedFiles (component w') = selectedFiles (component w)
  /\ toggleBlocked (component w') = true
  /\ forall file, toggleSelection (component w') file = component w'.
Proof.
  cbv zeta. unfold removeSelectedFile.
  cbn [fst snd set_component component deleteCalls snackBar set_toggleBlocked
       selectedFiles toggleBlocked].
  repeat split.
Qed.

(** X20: a confirmed [removeSelectedFile] always ends with an empty
    selection.  It lifts the toggle block exactly when the reload of the
    directory resolved, and then the current folder is sorted by name;
    when the reload rejected, the rejection is passed on and the toggle
    stays blocked. *)
Theorem removeSelectedFile_confirmed_end_state
        Server getDirectory deleteFile (w : World Server) deleteSelectedFiles :
  deleteSelectedFiles <> Some false ->
  let out := removeSelectedFile Server getDirectory deleteFile w deleteSelectedFiles in
  selectedFiles (component (fst out)) = []
  /\ toggleBlocked (component (fst out))
     = match snd out with None => false | Some _ => true end
  /\ (snd out = None ->
      exists folder,
        currentFolder (component (fst out)) = Some folder
        /\ StronglySorted nameLe (files folder)
        /\ StronglySorted nameLe (subDirectories folder)).
Proof.
  intros Hc out. subst out. unfold removeSelectedFile.
  assert (E : forall X (a b : X),
             match deleteSelectedFiles with Some false => a | _ => b end = b).
  { intros X a b. destruct deleteSelectedFiles as [[|]|]; congruence. }
  rewrite E. clear E.
  pose proof (deleteLoop_spec Server deleteFile (selectedFiles (component w))
                (set_component Server w (set_toggleBlocked (component w) true)) [])
    as Hloop.
  cbv zeta in Hloop. destruct Hloop as (_ & _ & _ & Hcomp).
  cbn [set_component component set_toggleBlocked selectedFiles] in *.
  destruct (deleteLoop Server deleteFile _ _ _) as [w1 failed].
  cbn [fst] in Hcomp.
  match goal with
  | |- context [reloadDirectory Server getDirectory ?x] =>
      set (w2 := x);
      assert (Hblocked : toggleBlocked (component w2) = true)
        by (subst w2; destruct (List.length failed =? 0)%nat;
            cbn [notify set_component component set_selectedFiles toggleBlocked];
            rewrite Hcomp; reflexivity);
      assert (Hsel : selectedFiles (component w2) = [])
        by (subst w2; destruct (List.length failed =? 0)%nat; reflexivity)
  end.
  pose proof (reloadDirectory_frame Server getDirectory w2) as Hf.
  cbv zeta in Hf. destruct Hf as (_ & _ & _ & F4 & F5).
  unfold reloadDirectory in *.
  destruct (currentFolder (component w2)) as [folder|] eqn:Ecf.
  - unfold changeDirectory in *.
    destruct (getDirectory (server w2) (dirId folder) true) as [fetched|] eqn:Eg;
      cbn [fst snd set_component component set_currentFolder set_toggleBlocked
           selectedFiles toggleBlocked currentFolder] in *.
    + split; [ congruence | ]. split; [ reflexivity | ]. intros _.
      eexists. split; [ reflexivity | ].
      cbn [files subDirectories]. split; apply sort_sorted.
    + split; [ congruence | ]. split; [ congruence | ]. discriminate.
  - cbn [fst snd] in *. split; [ congruence | ]. split; [ congruence | ]. discriminate.
Qed.

(** In the sample world the reload resolves: the selection is emptied,
    the toggle is free again and the folder is listed in order. *)
Lemma removeSelectedFile_confirmed_end_state_witness :
  let out := removeSelectedFile (list string) sampleGetDirectory sampleDeleteFile
                                sampleWorld (Some true) in
  snd out = None
  /\ selectedFiles (component (fst out)) = []
  /\ toggleBlocked (component (fst out))
     = match snd out with None => false | Some _ => true end
  /\ (snd out = None ->
      exists folder,
        currentFolder (component (fst out)) = Some folder
        /\ StronglySorted nameLe (files folder)
        /\ StronglySorted nameLe (subDirectories folder)).
Proof.
  cbv zeta. split; [ reflexivity | ].
  apply (removeSelectedFile_confirmed_end_state
           (list string) sampleGetDirectory sampleDeleteFile sampleWorld (Some true)).
  discriminate.
Defined.

(** *** renameFile and the selection as a whole *)

Lemma withName_ref file value f : fileRef (withName file value f) = fileRef f.
Proof. unfold withName. destruct (sameFile f file); reflexivity. Qed.

Lemma map_withName_refs file value l :
  map fileRef (map (withName file value) l) = map fileRef l.
Proof.
  rewrite map_map. apply map_ext. intros f. apply withName_ref.
Qed.

Lemma option_eq_dec {A} (dec : forall x y : A, {x = y} + {x <> y}) (a b : option A) :
  {a = b} + {a <> b}.
Proof. decide equality. Qed.

Section RenameFacts.
Variable Server : Type.
Variable getDirectory : Server -> string -> bool -> option IDirectory.
Variable deleteFile : Server -> IFile -> Server * bool.
Variable updateFile : Server -> IFile -> Server * bool.

(** What [renameFile] leaves when the dialog gave a text. *)
Lemma renameFile_text (w : World Server) file value :
  let renamed := withName file value file in
  let w' := fst (renameFile Server getDirectory updateFile w file (dialogText value)) in
  snackBar w'
  = snackBar w ++ [snackOpen (if snd (updateFile (server w) renamed)
                              then "Renamed file"
                              else "Rename failed, Server error")]
  /\ server w' = fst (updateFile (server w) renamed)
  /\ selectedFiles (component w') = map (withName file value) (selectedFiles (component w))
  /\ toggleBlocked (component w') = toggleBlocked (component w)
  /\ deleteCalls w' = deleteCalls w.
Proof.
  cbv zeta. unfold renameFile.
  cbn [set_component server component].
  destruct (updateFile (server w) (withName file value file)) as [srv ok].
  cbn [fst snd].
  match goal with
  | |- context [reloadDirectory Server getDirectory ?x] =>
      pose proof (reloadDirectory_frame Server getDirectory x) as Hf
  end.
  cbv zeta in Hf. destruct Hf as (F1 & F2 & F3 & F4 & F5).
  rewrite F1, F2, F3, F4, F5.
  destruct ok; cbn; repeat split.
Qed.

(** X21: when the rename dialog gives a text, [renameFile] asks
    [updateFile] once, with the file under its new name, and shows
    exactly one notification, "Renamed file" if the call resolved and the
    failure message if not.  The new name is put on the file object
    before the service is asked and is not taken back when the service
    rejects: a selected object carries it either way.  When the dialog
    gives [undefined] or [false], nothing happens. *)
Theorem renameFile_notifies_once (w : World Server) file value :
  let renamed := withName file value file in
  let w' := fst (renameFile Server getDirectory updateFile w file (dialogText value)) in
  fileName renamed = value
  /\ fileRef renamed = fileRef file
  /\ snackBar w'
     = snackBar w ++ [snackOpen (if snd (updateFile (server w) renamed)
                                 then "Renamed file"
                                 else "Rename failed, Server error")]
  /\ server w' = fst (updateFile (server w) renamed)
  /\ (forall f, In f (selectedFiles (component w')) ->
                fileRef f = fileRef file -> fileName f = value)
  /\ renameFile Server getDirectory updateFile w file dialogUndefined = (w, None)
  /\ renameFile Server getDirectory updateFile w file dialogFalse = (w, None).
Proof.
  cbv zeta.
  destruct (renameFile_text w file value) as (H1 & H2 & H3 & _ & _).
  cbv zeta in *.
  assert (Hself : sameFile file file = true) by apply Nat.eqb_refl.
  repeat split; auto.
  - unfold withName. now rewrite Hself.
  - unfold withName. now rewrite Hself.
  - intros f Hin Href. rewrite H3 in Hin.
    apply in_map_iff in Hin. destruct Hin as (g & <- & _).
    rewrite withName_ref in Href. unfold withName, sameFile.
    apply Nat.eqb_eq in Href. now rewrite Href.
Qed.

(** X22: every method keeps the selection free of repeated file objects:
    [toggleSelection], [changeDirectory], [reloadDirectory],
    [removeSelectedFile] and [renameFile] all turn a selection without
    repetition into a selection without repetition, whatever the services
    answer. *)
Theorem selection_stays_distinct (w : World Server) file mediaId lazy confirmed value :
  selectionDistinct (component w) ->
  selectionDistinct (toggleSelection (component w) file)
  /\ selectionDistinct
       (component (fst (changeDirectory Server getDirectory w mediaId lazy)))
  /\ selectionDistinct (component (fst (reloadDirectory Server getDirectory w)))
  /\ selectionDistinct
       (component (fst (removeSelectedFile Server getDirectory deleteFile w confirmed)))
  /\ selectionDistinct
       (component (fst (renameFile Server getDirectory updateFile w file value))).
Proof.
  intros Hnd.
  destruct (changeDirectory_frame Server getDirectory w mediaId lazy)
    as (_ & _ & _ & A4 & _).
  destruct (reloadDirectory_frame Server getDirectory w) as (_ & _ & _ & B4 & _).
  cbv zeta in *.
  split; [ now apply toggleSelection_distinct | ].
  split; [ unfold selectionDistinct; now rewrite A4 | ].
  split; [ unfold selectionDistinct; now rewrite B4 | ].
  split.
  - destruct (option_eq_dec Bool.bool_dec confirmed (Some false)) as [-> | Hc].
    + exact Hnd.
    + destruct (removeSelectedFile_confirmed Server getDirectory deleteFile w
                  confirmed Hc) as (_ & _ & Hs).
      cbv zeta in Hs. unfold selectionDistinct. rewrite Hs. constructor.
  - destruct value as [ | | v]; try exact Hnd.
    destruct (renameFile_text w file v) as (_ & _ & H3 & _ & _).
    cbv zeta in H3. unfold selectionDistinct.
    rewrite H3, map_withName_refs. exact Hnd.
Qed.
End RenameFacts.

(** Renaming the selected [Beta.pdf] on a server that refuses: one
    failure notification, and the selected object is renamed all the
    same. *)
Lemma renameFile_notifies_once_witness :
  let refuse := fun (srv : list string) (_ : IFile) => (srv, false) in
  let w' := fst (renameFile (list string) sampleGetDirectory refuse sampleWorld Beta
                            (dialogText "gamma.pdf")) in
  snackBar w' = [snackOpen "Rename failed, Server error"]
  /\ map fileName (selectedFiles (component w')) = ["notes.txt"; "gamma.pdf"; "alpha.png"].
Proof.
  cbv zeta. split; [ | reflexivity ].
  apply (renameFile_notifies_once (list string) sampleGetDirectory
           (fun (srv : list string) (_ : IFile) => (srv, false))
           sampleWorld Beta "gamma.pdf").
Defined.

Lemma selection_stays_distinct_witness :
  selectionDistinct (toggleSelection (component sampleWorld) Beta)
  /\ selectionDistinct
       (component (fst (removeSelectedFile (list string) sampleGetDirectory
                          sampleDeleteFile sampleWorld (Some true)))).
Proof.
  assert (Hnd : selectionDistinct (component sampleWorld)).
  { unfold selectionDistinct. simpl. repeat constructor; simpl; intuition discriminate. }
  destruct (selection_stays_distinct (list string) sampleGetDirectory sampleDeleteFile
              sampleDeleteFile sampleWorld Beta "d0" true (Some true) dialogFalse Hnd)
    as (H1 & _ & _ & H4 & _).
  split; [ exact H1 | exact H4 ].
Defined.

(* ===================================================================== *)
(** ** Properties of the login middleware                                *)
(* ===================================================================== *)

Import LoginMiddleware.

Lemma string_length_append (a b : string) :
  String.length (a ++ b)%string = String.length a + String.length b.
Proof. induction a as [|c a IH]; simpl; auto. Qed.

Lemma string_append_inv_tail (a b t : string) :
  (a ++ t)%string = (b ++ t)%string -> a = b.
Proof.
  revert b. induction a as [|c a IH]; intros [|d b] H; simpl in H.
  - reflexivity.
  - exfalso. apply (f_equal String.length) in H. simpl in H.
    rewrite string_length_append in H. lia.
  - exfalso. apply (f_equal String.length) in H. simpl in H.
    rewrite string_length_append in H. lia.
  - inversion H; subst. f_equal. now apply IH.
Qed.

(** X23: [buildDn] puts the user name between [uid=] and the fixed
    suffix, and two user names with the same distinguished name are the
    same user name. *)
Theorem buildDn_injective (u1 u2 : string) :
  buildDn u1 = buildDn u2 -> u1 = u2.
Proof.
  unfold buildDn. cbv zeta. intros H.
  cbn [append] in H. inversion H as [H'].
  exact (string_append_inv_tail _ _ _ H').
Qed.

Lemma buildDn_injective_witness :
  buildDn "jdoe" = "uid=jdoe,ou=people,ou=Students,dc=fbi,dc=h-da,dc=de"
  /\ "jdoe" = "jdoe".
Proof.
  split; [ reflexivity | ].
  apply (buildDn_injective "jdoe" "jdoe"). reflexivity.
Defined.

Ltac flatten_log :=
  repeat rewrite <- app_assoc; cbn [app].

Section LdapFacts.
Variable throws : list Effect -> Effect -> bool.

(** Every run of [ldapLogin]: what it adds to the effects, and what it
    returns. *)
Lemma ldapLogin_runs username password log :
  exists added,
    fst (ldapLogin throws username password log) = log ++ added
    /\ Forall ldapOnly added
    /\ (snd (ldapLogin throws username password log) = Some undefined
        \/ snd (ldapLogin throws username password log) = None)
    /\ (throws log RequireLdap = false ->
        throws (log ++ [RequireLdap]) (CreateClient buildOpts) = false ->
        exists before,
          added = [RequireLdap; CreateClient buildOpts;
                   Bind (buildDn username) password] ++ before ++ [Unbind]).
Proof.
  unfold ldapLogin, ldapLoginTry, isLdapAuthenticated, ldapSearch, call.
  destruct (throws log RequireLdap) eqn:T1.
  { cbn [fst snd]. flatten_log. eexists. split; [ reflexivity | ].
    split; [ repeat constructor | ]. split; [ auto | discriminate ]. }
  destruct (throws (log ++ [RequireLdap]) (CreateClient buildOpts)) eqn:T2.
  { cbn [fst snd]. flatten_log. eexists. split; [ reflexivity | ].
    split; [ repeat constructor | ]. split; [ auto | discriminate ]. }
  destruct (throws ((log ++ [RequireLdap]) ++ [CreateClient buildOpts])
                   (Bind (buildDn username) password)) eqn:T3.
  { match goal with
    | |- context [throws ?l Unbind] => destruct (throws l Unbind)
    end; cbn [fst snd]; flatten_log; eexists; (split; [ reflexivity | ]);
      (split; [ repeat constructor | ]); (split; [ auto | ]); intros _ _;
      [ exists [ConsoleLog] | exists [ConsoleLog] ]; reflexivity. }
  destruct (throws (((log ++ [RequireLdap]) ++ [CreateClient buildOpts])
                      ++ [Bind (buildDn username) password]) Unbind) eqn:T4.
  { match goal with
    | |- context [throws (?l ++ [ConsoleLog]) Unbind] =>
        destruct (throws (l ++ [ConsoleLog]) Unbind)
    end; cbn [fst snd]; flatten_log; eexists; (split; [ reflexivity | ]);
      (split; [ repeat constructor | ]); (split; [ auto | ]); intros _ _;
      [ exists [Unbind; ConsoleLog] | exists [Unbind; ConsoleLog] ]; reflexivity. }
  match goal with
  | |- context [throws ?l Unbind] =>
      lazymatch l with
      | (_ ++ [Unbind]) => destruct (throws l Unbind)
      end
  end; cbn [fst snd]; flatten_log; eexists; (split; [ reflexivity | ]);
    (split; [ repeat constructor | ]); (split; [ auto | ]); intros _ _;
    [ exists [Unbind] | exists [Unbind] ]; reflexivity.
Qed.
End LdapFacts.

(** X24: whatever the LDAP library does, [ldapLogin] returns no value
    (it returns [undefined], or its [finally] block throws) and performs
    no search; and when the library was loaded and the client created,
    it binds with the distinguished name of the user and its last call
    into the library is an [unbind]. *)
Theorem ldapLogin_returns_nothing_and_unbinds throws username password log :
  let out := ldapLogin throws username password log in
  (forall v, snd out = Some v -> isNullOrUndefined v = true)
  /\ exists added,
      fst out = log ++ added
      /\ (forall dn, ~ In (Search dn) added)
      /\ (throws log RequireLdap = false ->
          throws (log ++ [RequireLdap]) (CreateClient buildOpts) = false ->
          exists before,
            added = [RequireLdap; CreateClient buildOpts;
                     Bind (buildDn username) password] ++ before ++ [Unbind]).
Proof.
  cbv zeta.
  destruct (ldapLogin_runs throws username password log)
    as (added & Hlog & Hall & Hret & Hunbind).
  split.
  - intros v Hv. destruct Hret as [Hr | Hr]; rewrite Hr in Hv; inversion Hv.
    reflexivity.
  - exists added. split; [ exact Hlog | ]. split; [ | exact Hunbind ].
    intros dn Hin. rewrite Forall_forall in Hall. exact (Hall _ Hin).
Qed.

(** With a library that never throws: bind, unbind, and unbind again. *)
Lemma ldapLogin_returns_nothing_and_unbinds_witness :
  ldapLogin (fun _ _ => false) "jdoe" "secret" []
  = ([RequireLdap; CreateClient buildOpts; Bind (buildDn "jdoe") "secret";
      Unbind; Unbind], Some undefined)
  /\ exists added,
      fst (ldapLogin (fun _ _ => false) "jdoe" "secret" []) = [] ++ added
      /\ (forall dn, ~ In (Search dn) added)
      /\ ((fun _ _ => false) ([] : list Effect) RequireLdap = false ->
          (fun _ _ => false) ([] ++ [RequireLdap]) (CreateClient buildOpts) = false ->
          exists before,
            added = [RequireLdap; CreateClient buildOpts;
                     Bind (buildDn "jdoe") "secret"] ++ before ++ [Unbind]).
Proof.
  split; [ reflexivity | ].
  apply (ldapLogin_returns_nothing_and_unbinds (fun _ _ => false) "jdoe" "secret" []).
Defined.

(** X25: the callback of the local authentication calls [next(null)]
    and nothing else when there is no error.  When there is an error it
    never calls [next(null)], whatever the LDAP library does: if it
    returns at all, its last three effects are the status 401, the error
    as body and [next(err)]. *)
Theorem loginCallback_never_passes_a_failed_login throws username password err log :
  let out := loginCallback throws username password err log in
  exists added,
    fst out = log ++ added
    /\ match err with
       | None => added = [Next None] /\ snd out = Some tt
       | Some e =>
           ~ In (Next None) added
           /\ (snd out = Some tt ->
               exists ldap,
                 added = ldap ++ [Status 401; Json e; Next (Some e)]
                 /\ Forall ldapOnly ldap)
       end.
Proof.
  cbv zeta. unfold loginCallback.
  destruct err as [e|]; [ | exists [Next None]; repeat split ].
  destruct (ldapLogin_runs throws username password log)
    as (added & Hlog & Hall & Hret & _).
  destruct (ldapLogin throws username password log) as [log1 r].
  cbn [fst snd] in *. subst log1.
  assert (Hno : ~ In (Next None) added).
  { intros Hin. rewrite Forall_forall in Hall. exact (Hall _ Hin). }
  destruct Hret as [-> | ->]; cbn [isNullOrUndefined fst snd].
  - exists (added ++ [Status 401; Json e; Next (Some e)]).
    rewrite app_assoc. split; [ reflexivity | ]. split.
    + intros Hin. apply in_app_or in Hin. destruct Hin as [Hin | Hin]; auto.
      simpl in Hin. destruct Hin as [H | [H | [H | []]]]; discriminate H.
    + intros _. exists added. auto.
  - exists added. split; [ reflexivity | ]. split; [ exact Hno | discriminate ].
Qed.

(** Names with capital letters of the Latin-1 range: [sortFnc] sees the
    capital and the small u-umlaut as equal, and a listing is ordered by
    the lowercased code units. *)
Example sortFnc_latin1_run :
  let U2 := mkFile 11 "g1" (String (ascii_of_nat 220) "bung 2") "m1" 1 in
  let u1 := mkFile 12 "g2" (String (ascii_of_nat 252) "bung 1") "m2" 1 in
  let Ub := mkFile 13 "g3" (String (ascii_of_nat 220) "bung") "m3" 1 in
  let ub := mkFile 14 "g4" (String (ascii_of_nat 252) "bung") "m4" 1 in
  let Zebra := mkFile 15 "g5" "Zebra" "m5" 1 in
  sortFnc Ub ub = 0%Z
  /\ sort sortFnc [U2; u1; Zebra] = [Zebra; u1; U2].
Proof. split; reflexivity. Qed.
